(** * Sihara-Prak-Bot: session store, session resolver, assistant driver
    and inbound message gate.

  The repository holds two revisions of the bot:
  - [src/unnamed/part_000]: threads are stored as versioned records
    [{thread_id, prompt_version}] (module [Versioned]);
  - [src/index.js]: threads are stored as bare handle strings
    (module [IndexJs]).

  JavaScript strings are sequences of UTF-16 code units, values are the
  JSON values extended with [undefined], the global [threads] object is a
  finite map, and the asynchronous functions are written in a state and
  exception monad over the part of the world they touch. *)

From Stdlib Require Import ZArith NArith Strings.String Strings.Ascii.
From Stdlib Require Import Numbers.DecimalString.
From Stdlib Require Numbers.DecimalZ.
From stdpp Require Import gmap list.

#[local] Set Warnings "-register-all".
#[local] Open Scope N_scope.

(** ** JavaScript strings *)

Module JsString.

(** A string is its list of UTF-16 code units. *)
Abbreviation jsstring := (list N).

(** ASCII literals. *)
Definition lit (s : string) : jsstring :=
  map N_of_ascii (list_ascii_of_string s).
#[global] Arguments lit s%_string.

(** ECMAScript WhiteSpace and LineTerminator code points, the characters
    removed by [String.prototype.trim]. All of them are in the BMP, hence
    single code units. *)
Definition is_ws (c : N) : bool :=
  (c =? 0x09) || (c =? 0x0A) || (c =? 0x0B) || (c =? 0x0C) || (c =? 0x0D)
  || (c =? 0x20) || (c =? 0xA0) || (c =? 0x1680)
  || ((0x2000 <=? c) && (c <=? 0x200A))
  || (c =? 0x2028) || (c =? 0x2029) || (c =? 0x202F) || (c =? 0x205F)
  || (c =? 0x3000) || (c =? 0xFEFF).

Fixpoint trimStart (s : jsstring) : jsstring :=
  match s with
  | c :: s' => if is_ws c then trimStart s' else s
  | [] => []
  end.

Definition trimEnd (s : jsstring) : jsstring := rev (trimStart (rev s)).

(** [s.trim()] *)
Definition trim (s : jsstring) : jsstring := trimEnd (trimStart s).

(** [s.startsWith(p)] *)
Fixpoint startsWith (p s : jsstring) : bool :=
  match p, s with
  | [], _ => true
  | a :: p', b :: s' => (a =? b) && startsWith p' s'
  | _ :: _, [] => false
  end.

(** StringIndexOf(s, p, from): the least index at or after [from] where [p]
    occurs; [i] counts the code units already skipped. *)
Fixpoint indexOf_from (p s : jsstring) (i : nat) : option nat :=
  if startsWith p s then Some i
  else match s with
       | [] => None
       | _ :: s' => indexOf_from p s' (S i)
       end.

Definition indexOf (p s : jsstring) : option nat := indexOf_from p s 0.

(** [p] occurs in [s] as a contiguous run of code units. *)
Definition occurs (p s : jsstring) : Prop :=
  exists pre post, s = pre ++ p ++ post.

(** [s.includes(p)] *)
Definition includes (p s : jsstring) : bool :=
  match indexOf p s with Some _ => true | None => false end.

(** [s.replace(p, r)] for a string pattern [p] and a replacement [r]
    without [$] patterns: only the first occurrence is replaced. *)
Definition replace (p r s : jsstring) : jsstring :=
  match indexOf p s with
  | Some pos => take pos s ++ r ++ drop (pos + length p) s
  | None => s
  end.

(** Number::toString for an integral number below 10^21 in magnitude. *)
Definition of_Z (z : Z) : jsstring :=
  lit (NilZero.string_of_int (Z.to_int z)).

End JsString.
Export JsString.

(** ** JavaScript values *)

Module JsVal.

(** The values [JSON.parse] produces, and [undefined]. Numbers are kept
    integral: the program only tests them for truthiness and prints
    identifiers. *)
Inductive jsval : Type :=
| JUndefined
| JNull
| JBool (b : bool)
| JNum (n : Z)
| JStr (s : jsstring)
| JArr (l : list jsval)
| JObj (m : gmap jsstring jsval).

#[global] Instance jsval_eq_dec : EqDecision jsval.
Proof.
  refine (fix go (v1 v2 : jsval) {struct v1} : Decision (v1 = v2) :=
    let _ : EqDecision jsval := @go in
    match v1, v2 with
    | JUndefined, JUndefined => left _
    | JNull, JNull => left _
    | JBool a, JBool b => cast_if (decide (a = b))
    | JNum a, JNum b => cast_if (decide (a = b))
    | JStr a, JStr b => cast_if (decide (a = b))
    | JArr a, JArr b => cast_if (decide (a = b))
    | JObj a, JObj b => cast_if (decide (a = b))
    | _, _ => right _
    end); abstract congruence.
Defined.

(** ToBoolean *)
Definition truthy (v : jsval) : bool :=
  match v with
  | JUndefined | JNull => false
  | JBool b => b
  | JNum n => negb (n =? 0)%Z
  | JStr s => match s with [] => false | _ => true end
  | JArr _ | JObj _ => true
  end.

(** [v === s] against a string constant. *)
Definition is_str (s : jsstring) (v : jsval) : bool :=
  match v with
  | JStr s' => bool_decide (s' = s)
  | _ => false
  end.

(** [v.k] for a property name [k] that no built-in prototype defines and
    that is neither an index nor [length], on a value [v] other than
    [null] and [undefined]; [v?.k] on any value. *)
Definition get (k : jsstring) (v : jsval) : jsval :=
  match v with
  | JObj m => default JUndefined (m !! k)
  | _ => JUndefined
  end.

(** [v?.[0]] *)
Definition get0 (v : jsval) : jsval :=
  match v with
  | JArr l => default JUndefined (head l)
  | JStr s => match s with c :: _ => JStr [c] | [] => JUndefined end
  | JObj m => default JUndefined (m !! lit "0")
  | _ => JUndefined
  end.

(** [a || b] *)
Definition or_else (a b : jsval) : jsval := if truthy a then a else b.

End JsVal.
Export JsVal.

(** ** The world the bot acts on *)

Module World.

(** Calls to the outside: the assistant service ([openai.beta.threads...])
    and the messaging transport ([bot.sendMessage]). *)
Inductive request : Type :=
| ThreadsCreate
| MessagesCreate (threadId : jsval) (role content : jsstring)
| RunsCreateAndPoll (threadId : jsval) (assistant_id : jsstring)
| MessagesList (threadId : jsval) (limit : nat)
| SendMessage (chatId : Z) (reply : jsval) (reply_to_message_id : Z).

(** What the outside answers. Each answer is a function of the number of
    calls made before it, so that every behaviour of the services is some
    [Services]; [None] and [false] stand for a rejected promise. *)
Record Services : Type := {
  threads_create : nat -> option jsstring;              (* [thread.id] *)
  messages_create : nat -> bool;
  runs_createAndPoll : nat -> option jsstring;          (* [run.status] *)
  messages_list : nat -> option (list (gmap jsstring jsval));  (* [messages.data] *)
  sendMessage : nat -> bool
}.

(** The assistant service never issues the empty string as a handle. *)
Definition issues_handles (s : Services) : Prop :=
  forall n id, threads_create s n = Some id -> id <> [].

(** [JSON.parse] ([None] when it throws a SyntaxError) and
    [JSON.stringify(_, null, 2)]. *)
Class JsonLib : Type := {
  JSON_parse : jsstring -> option jsval;
  JSON_stringify : jsval -> jsstring
}.

Inductive exn : Type :=
| ApiError (r : request)          (* a service call was rejected *)
| Error (message : jsstring).     (* [new Error(message)] *)

Record World : Type := {
  threads : gmap jsstring jsval;   (* [let threads] *)
  file : option jsstring;          (* THREADS_FILE: its content, if it exists *)
  writes : nat;                    (* calls of [fs.writeFileSync] *)
  requests : list request;         (* calls to the outside, oldest first *)
  acks : nat;                      (* [res.sendStatus(200)] *)
  errlog : list exn                (* [console.error] in the handler *)
}.

Definition set_threads (t : gmap jsstring jsval) (w : World) : World :=
  {| threads := t; file := file w; writes := writes w;
     requests := requests w; acks := acks w; errlog := errlog w |}.

Definition write_file (content : jsstring) (w : World) : World :=
  {| threads := threads w; file := Some content; writes := S (writes w);
     requests := requests w; acks := acks w; errlog := errlog w |}.

Definition log_request (r : request) (w : World) : World :=
  {| threads := threads w; file := file w; writes := writes w;
     requests := requests w ++ [r]; acks := acks w; errlog := errlog w |}.

Definition ack (w : World) : World :=
  {| threads := threads w; file := file w; writes := writes w;
     requests := requests w; acks := S (acks w); errlog := errlog w |}.

Definition console_error (e : exn) (w : World) : World :=
  {| threads := threads w; file := file w; writes := writes w;
     requests := requests w; acks := acks w; errlog := errlog w ++ [e] |}.

(** The turns appended to session [tid], oldest first, as the request log
    records them. The program issues no request that removes a turn. *)
Definition history (tid : jsval) (rs : list request) : list (jsstring * jsstring) :=
  omap (fun r => match r with
                 | MessagesCreate t role content =>
                     if bool_decide (t = tid) then Some (role, content) else None
                 | _ => None
                 end) rs.

(** *** Asynchronous functions: state and exceptions *)

Inductive result (A : Type) : Type :=
| Ok (a : A)
| Throw (e : exn).
#[global] Arguments Ok {A} a.
#[global] Arguments Throw {A} e.

Definition M (A : Type) : Type := World -> result A * World.

#[global] Instance M_ret : MRet M := fun A a w => (Ok a, w).

#[global] Instance M_bind : MBind M := fun A B k c w =>
  match c w with
  | (Ok a, w') => k a w'
  | (Throw e, w') => (Throw e, w')
  end.

Definition throw {A : Type} (e : exn) : M A := fun w => (Throw e, w).

Definition modify (f : World -> World) : M unit := fun w => (Ok tt, f w).

Definition read {A : Type} (f : World -> A) : M A := fun w => (Ok (f w), w).

(** [await service.call(...)]: the call is logged, then answered. *)
Definition await {A : Type} (r : request) (answer : nat -> option A) : M A :=
  fun w =>
    match answer (length (requests w)) with
    | Some a => (Ok a, log_request r w)
    | None => (Throw (ApiError r), log_request r w)
    end.

Definition succeeded (ok : nat -> bool) (n : nat) : option unit :=
  if ok n then Some tt else None.

End World.
Export World.

(** ** Code the two revisions share *)

(** A Telegram message as the handler reads it: [message.message_id],
    [message.chat.id], [message.chat.type], [message.from?.id] and
    [message.text]. *)
Record message : Type := {
  message_id : Z;
  chat_id : Z;
  chat_type : jsstring;
  from_id : option Z;
  text : option jsstring
}.

Section Common.
Context `{JSON : JsonLib}.
Variable BOT_USERNAME : jsstring.

(** Load threads: part_000 lines 54-61, index.js lines 46-53. The file
    exists iff [file] is [Some _]; a SyntaxError of [JSON.parse] is caught. *)
Definition load (file : option jsstring) : jsval :=
  match file with
  | Some content =>
      match JSON_parse content with
      | Some parsed => parsed
      | None => JObj ∅
      end
  | None => JObj ∅
  end.

(** [saveThreads()] *)
Definition saveThreads : M unit :=
  modify (fun w => write_file (JSON_stringify (JObj (threads w))) w).

(** [getThreadKey(chatId, userId)]: the template [`${chatId}:${userId}`];
    [userId] is [message.from?.id] and may be [undefined]. Every key holds a
    colon, so [threads[key]] never reaches a property of [Object.prototype]. *)
Definition getThreadKey (chatId : Z) (userId : option Z) : jsstring :=
  of_Z chatId ++ lit ":" ++
  match userId with Some u => of_Z u | None => lit "undefined" end.

(** [(m) => m.role === "assistant"] on a message object. *)
Definition is_assistant (m : gmap jsstring jsval) : bool :=
  is_str (lit "assistant") (default JUndefined (m !! lit "role")).

(** [assistantMessage?.content?.[0]?.text?.value] *)
Definition text_value (assistantMessage : option (gmap jsstring jsval)) : jsval :=
  match assistantMessage with
  | Some m =>
      get (lit "value") (get (lit "text")
        (get0 (default JUndefined (m !! lit "content"))))
  | None => JUndefined
  end.

(** [`@${BOT_USERNAME}`] *)
Definition mention : jsstring := lit "@" ++ BOT_USERNAME.

(** The head of the webhook handler, part_000 lines 139-151 and index.js
    lines 120-135: [None] when the handler returns early, otherwise the
    message and the text that is passed on to [runAssistant]. *)
Definition gate (body : option message) : option (message * jsstring) :=
  match body with
  | None => None                                   (* [req.body?.message] *)
  | Some msg =>
      match text msg with
      | None | Some [] => None                     (* [!message?.text] *)
      | Some raw =>
          let text := trim raw in
          let isPrivate := bool_decide (chat_type msg = lit "private") in
          if negb isPrivate && negb (includes mention text) then None
          else
            let text :=
              if negb isPrivate then trim (replace mention [] text) else text in
            Some (msg, text)
      end
  end.

End Common.

(** The default of [BOT_USERNAME] in the destructuring of [process.env]. *)
Definition default_BOT_USERNAME : jsstring := lit "SiharaPrakBot".

(** ** src/unnamed/part_000: versioned session records *)

Module Versioned.

Section Bot.
Context `{JSON : JsonLib}.
Variable PROMPT_VERSION : jsstring.
Variables ASSISTANT_ID BOT_USERNAME : jsstring.
Variable services : Services.

(** One-time reset after deploy, lines 16-19: the file is unlinked if it
    exists. *)
Definition resetAll (file : option jsstring) : option jsstring :=
  match file with
  | Some _ => None
  | None => None
  end.

(** The value of [threads] once the module has been evaluated. *)
Definition startup (file : option jsstring) : jsval := load (resetAll file).

(** [{ thread_id: id, prompt_version: PROMPT_VERSION }] *)
Definition record (id : jsstring) : jsval :=
  JObj (<[lit "thread_id" := JStr id]>
        (<[lit "prompt_version" := JStr PROMPT_VERSION]> ∅)).

(** The test of lines 78-82 on [existing]. *)
Definition reusable (existing : jsval) : bool :=
  truthy existing
  && truthy (get (lit "thread_id") existing)
  && is_str PROMPT_VERSION (get (lit "prompt_version") existing).

(** [getOrCreateThread(chatId, userId)], lines 74-95. *)
Definition getOrCreateThread (chatId : Z) (userId : option Z) : M jsval :=
  let key := getThreadKey chatId userId in
  existing ← read (fun w => default JUndefined (threads w !! key));
  if reusable existing
  then mret (get (lit "thread_id") existing)
  else
    thread_id ← await ThreadsCreate (threads_create services);
    modify (fun w => set_threads (<[key := record thread_id]> (threads w)) w);;
    saveThreads;;
    mret (JStr thread_id).

(** The world once lines 86-93 have run with [thread.id = id]. *)
Definition created (key id : jsstring) (w : World) : World :=
  let w1 := set_threads (<[key := record id]> (threads w))
                        (log_request ThreadsCreate w) in
  write_file (JSON_stringify (JObj (threads w1))) w1.

(** [runAssistant(chatId, userId, userText)], lines 98-123. *)
Definition runAssistant (chatId : Z) (userId : option Z) (userText : jsstring)
  : M jsval :=
  threadId ← getOrCreateThread chatId userId;
  await (MessagesCreate threadId (lit "user") userText)
        (succeeded (messages_create services));;
  status ← await (RunsCreateAndPoll threadId ASSISTANT_ID)
                 (runs_createAndPoll services);
  if negb (bool_decide (status = lit "completed"))
  then throw (Error (lit "Assistant run failed: " ++ status))
  else
    data ← await (MessagesList threadId 5) (messages_list services);
    let assistantMessage := find is_assistant data in
    mret (or_else (text_value assistantMessage) (JStr (lit "No response."))).

(** The webhook handler, lines 134-162. *)
Definition webhook (body : option message) (w : World) : World :=
  let w := ack w in
  match gate BOT_USERNAME body with
  | None => w
  | Some (msg, text) =>
      match (reply ← runAssistant (chat_id msg) (from_id msg) text;
             await (SendMessage (chat_id msg) reply (message_id msg))
                   (succeeded (sendMessage services))) w with
      | (Ok _, w') => w'
      | (Throw err, w') => console_error err w'
      end
  end.

End Bot.

(** Line 10: [const PROMPT_VERSION = "1.2"]. The functions above take the
    version as a parameter, so that records written by a process with
    another version can be talked about. *)
Definition PROMPT_VERSION : jsstring := lit "1.2".

End Versioned.

(** ** src/index.js: bare handles *)

Module IndexJs.

Section Bot.
Context `{JSON : JsonLib}.
Variables ASSISTANT_ID BOT_USERNAME : jsstring.
Variable services : Services.

(** The value of [threads] after lines 46-53. *)
Definition startup (file : option jsstring) : jsval := load file.

(** [getOrCreateThread(chatId, userId)], lines 66-73. *)
Definition getOrCreateThread (chatId : Z) (userId : option Z) : M jsval :=
  let key := getThreadKey chatId userId in
  existing ← read (fun w => default JUndefined (threads w !! key));
  if truthy existing then mret existing
  else
    thread_id ← await ThreadsCreate (threads_create services);
    modify (fun w => set_threads (<[key := JStr thread_id]> (threads w)) w);;
    saveThreads;;
    mret (JStr thread_id).

(** [runAssistant(chatId, userId, userText)], lines 77-97; the statement
    after [return] is never reached. *)
Definition runAssistant (chatId : Z) (userId : option Z) (userText : jsstring)
  : M jsval :=
  threadId ← getOrCreateThread chatId userId;
  await (MessagesCreate threadId (lit "user") userText)
        (succeeded (messages_create services));;
  status ← await (RunsCreateAndPoll threadId ASSISTANT_ID)
                 (runs_createAndPoll services);
  if negb (bool_decide (status = lit "completed"))
  then throw (Error (lit "Assistant run failed with status: " ++ status))
  else
    data ← await (MessagesList threadId 5) (messages_list services);
    let assistantMessage := find is_assistant data in
    mret (or_else (text_value assistantMessage)
                  (JStr (lit "No response generated."))).

(** The webhook handler, lines 115-146. It prints [err.message] where
    part_000 prints [err]; the log keeps the error itself. *)
Definition webhook (body : option message) (w : World) : World :=
  let w := ack w in
  match gate BOT_USERNAME body with
  | None => w
  | Some (msg, text) =>
      match (reply ← runAssistant (chat_id msg) (from_id msg) text;
             await (SendMessage (chat_id msg) reply (message_id msg))
                   (succeeded (sendMessage services))) w with
      | (Ok _, w') => w'
      | (Throw err, w') => console_error err w'
      end
  end.

End Bot.

End IndexJs.

(** ** Module evaluation: which top-level statements run, and in which scope *)

Module Toplevel.

#[local] Open Scope string_scope.

(** What the process finds when it starts. *)
Record host : Type := {
  env_complete : bool;     (* all required environment variables are set *)
  file_exists : bool;      (* [fs.existsSync(THREADS_FILE)] *)
  file_malformed : bool;   (* [JSON.parse] of its content throws *)
  fetch_ok : bool          (* the [setWebhook] request resolves *)
}.

(** A top-level statement with its line and the identifiers it evaluates
    while the module body runs. Identifiers inside the body of a function
    or of an arrow function are evaluated when that function is called, not
    here. *)
Inductive stmt : Type :=
| SImport (line : nat) (names : list string)
| SFunction (line : nat) (name : string)
| SLexical (line : nat) (names reads : list string)   (* [const] and [let] *)
| SEval (line : nat) (reads : list string) (fails : host -> bool)
| SIf (line : nat) (reads : list string) (cond : host -> bool) (body : list stmt)
| STry (body handler : list stmt)
| SUnlink (line : nat) (reads : list string)          (* [fs.unlinkSync] *)
| SExit (line : nat) (reads : list string)            (* [process.exit(1)] *)
| SListen (line : nat) (reads : list string).         (* [app.listen] *)

Inductive error : Type :=
| ReferenceError (line : nat) (name : string)
| OtherError (line : nat).

Record state : Type := {
  scope : list string;     (* initialised bindings and globals *)
  world : host;
  listening : bool         (* [app.listen] has been called *)
}.

Inductive outcome : Type :=
| Normal (st : state)
| Raised (e : error) (st : state)
| Exited (st : state).

(** The first of [reads], in evaluation order, that is not bound. *)
Definition unbound (reads : list string) (st : state) : option string :=
  find (fun x => negb (bool_decide (x ∈ scope st))) reads.

Definition bind (names : list string) (st : state) : state :=
  {| scope := names ++ scope st; world := world st; listening := listening st |}.

Definition guarded (line : nat) (reads : list string) (st : state)
  (k : outcome) : outcome :=
  match unbound reads st with
  | Some x => Raised (ReferenceError line x) st
  | None => k
  end.

Fixpoint exec (s : stmt) (st : state) : outcome :=
  let block :=
    fix block (b : list stmt) (st : state) : outcome :=
      match b with
      | [] => Normal st
      | s :: b' =>
          match exec s st with
          | Normal st' => block b' st'
          | o => o
          end
      end in
  match s with
  | SImport _ _ | SFunction _ _ => Normal st       (* bound before evaluation *)
  | SLexical line names reads => guarded line reads st (Normal (bind names st))
  | SEval line reads fails =>
      guarded line reads st
        (if fails (world st) then Raised (OtherError line) st else Normal st)
  | SIf line reads cond body =>
      guarded line reads st
        (if cond (world st) then block body st else Normal st)
  | STry body handler =>
      match block body st with
      | Raised _ st' => block handler st'
      | o => o
      end
  | SUnlink line reads =>
      guarded line reads st
        (Normal {| scope := scope st;
                   world := {| env_complete := env_complete (world st);
                               file_exists := false;
                               file_malformed := file_malformed (world st);
                               fetch_ok := fetch_ok (world st) |};
                   listening := listening st |})
  | SExit line reads => guarded line reads st (Exited st)
  | SListen line reads =>
      guarded line reads st
        (Normal {| scope := scope st; world := world st; listening := true |})
  end.

Fixpoint exec_all (b : list stmt) (st : state) : outcome :=
  match b with
  | [] => Normal st
  | s :: b' =>
      match exec s st with
      | Normal st' => exec_all b' st'
      | o => o
      end
  end.

(** Imports and function declarations are bound when the module is
    instantiated. *)
Definition hoisted (b : list stmt) : list string :=
  flat_map (fun s => match s with
                     | SImport _ names => names
                     | SFunction _ name => [name]
                     | _ => []
                     end) b.

(** The globals of Node.js the two files use. *)
Definition globals : list string :=
  ["console"; "process"; "fetch"; "JSON"; "setInterval"; "Error"].

Definition evaluate (b : list stmt) (h : host) : outcome :=
  exec_all b {| scope := hoisted b ++ globals; world := h; listening := false |}.

Definition final (o : outcome) : state :=
  match o with Normal st | Raised _ st | Exited st => st end.

Definition never : host -> bool := fun _ => false.

(** The top level of src/index.js. *)
Definition index_js : list stmt := [
  SImport 1 [];
  SImport 3 ["express"]; SImport 4 ["TelegramBot"]; SImport 5 ["OpenAI"];
  SImport 6 ["axios"]; SImport 7 ["fs"];
  SLexical 10 ["TELEGRAM_TOKEN"; "OPENAI_API_KEY"; "ASSISTANT_ID"; "BOT_SECRET";
              "BOT_USERNAME"; "PORT"; "RENDER_EXTERNAL_URL"] ["process"];
  SIf 21 ["TELEGRAM_TOKEN"; "OPENAI_API_KEY"; "ASSISTANT_ID"; "BOT_SECRET";
         "RENDER_EXTERNAL_URL"] (fun h => negb (env_complete h))
     [SEval 28 ["console"] never; SExit 29 ["process"]];
  SLexical 33 ["app"] ["express"];
  SEval 34 ["app"; "express"] never;
  SLexical 37 ["bot"] ["TelegramBot"; "TELEGRAM_TOKEN"];
  SLexical 40 ["openai"] ["OpenAI"; "OPENAI_API_KEY"];
  SLexical 43 ["THREADS_FILE"] [];
  SLexical 46 ["threads"] [];
  SIf 47 ["fs"; "THREADS_FILE"] file_exists
     [STry [SEval 49 ["threads"; "JSON"; "fs"; "THREADS_FILE"] file_malformed]
          [SEval 51 ["threads"] never]];
  SFunction 56 "saveThreads";
  SFunction 61 "getThreadKey";
  SFunction 66 "getOrCreateThread";
  SEval 75 ["console"; "text"] never;
  SFunction 77 "runAssistant";
  SLexical 100 ["WEBHOOK_URL"] ["RENDER_EXTERNAL_URL"; "BOT_SECRET"];
  SEval 103 ["fetch"; "TELEGRAM_TOKEN"; "JSON"; "WEBHOOK_URL"]
       (fun h => negb (fetch_ok h));
  SEval 109 ["app"] never;
  SEval 115 ["app"; "BOT_SECRET"] never;
  SEval 149 ["app"] never;
  SListen 154 ["app"; "PORT"];
  SEval 159 ["setInterval"] never
].

(** The top level of src/unnamed/part_000. *)
Definition part_000 : list stmt := [
  SImport 1 [];
  SImport 3 ["express"]; SImport 4 ["TelegramBot"]; SImport 5 ["OpenAI"];
  SImport 6 ["axios"]; SImport 7 ["fs"];
  SLexical 10 ["PROMPT_VERSION"] [];
  SLexical 13 ["THREADS_FILE"] [];
  SIf 16 ["fs"; "THREADS_FILE"] file_exists
     [SUnlink 17 ["fs"; "THREADS_FILE"]; SEval 18 ["console"] never];
  SLexical 22 ["TELEGRAM_TOKEN"; "OPENAI_API_KEY"; "ASSISTANT_ID"; "BOT_SECRET";
              "BOT_USERNAME"; "PORT"; "RENDER_EXTERNAL_URL"] ["process"];
  SIf 32 ["TELEGRAM_TOKEN"; "OPENAI_API_KEY"; "ASSISTANT_ID"; "BOT_SECRET";
         "RENDER_EXTERNAL_URL"] (fun h => negb (env_complete h))
     [SEval 39 ["console"] never; SExit 40 ["process"]];
  SLexical 44 ["app"] ["express"];
  SEval 45 ["app"; "express"] never;
  SLexical 48 ["bot"] ["TelegramBot"; "TELEGRAM_TOKEN"];
  SLexical 51 ["openai"] ["OpenAI"; "OPENAI_API_KEY"];
  SLexical 54 ["threads"] [];
  SIf 55 ["fs"; "THREADS_FILE"] file_exists
     [STry [SEval 57 ["threads"; "JSON"; "fs"; "THREADS_FILE"] file_malformed]
          [SEval 59 ["threads"] never]];
  SFunction 64 "saveThreads";
  SFunction 69 "getThreadKey";
  SFunction 74 "getOrCreateThread";
  SFunction 98 "runAssistant";
  SLexical 126 ["WEBHOOK_URL"] ["RENDER_EXTERNAL_URL"; "BOT_SECRET"];
  SEval 128 ["fetch"; "TELEGRAM_TOKEN"; "JSON"; "WEBHOOK_URL"]
       (fun h => negb (fetch_ok h));
  SEval 134 ["app"; "BOT_SECRET"] never;
  SEval 165 ["app"] never;
  SListen 169 ["app"; "PORT"];
  SEval 174 ["setInterval"] never
].

End Toplevel.

(** ** A small JSON library

    The theorems below hold for every [JsonLib]. To run the model on
    concrete files this reader and printer cover the JSON texts the bot
    writes and a little more: integral numbers, strings without escapes,
    arrays and objects. *)

Module MiniJson.

Fixpoint skip_ws (s : jsstring) : jsstring :=
  match s with
  | c :: s' =>
      if (c =? 0x20) || (c =? 0x09) || (c =? 0x0A) || (c =? 0x0D)
      then skip_ws s' else s
  | [] => []
  end.

(** The characters up to the closing quote, and what follows it. *)
Fixpoint read_string (s acc : jsstring) : option (jsstring * jsstring) :=
  match s with
  | [] => None
  | c :: s' =>
      if c =? 0x22 then Some (rev acc, s')
      else if (c =? 0x5C) || (c <? 0x20) then None
      else read_string s' (c :: acc)
  end.

Definition is_digit (c : N) : bool := (0x30 <=? c) && (c <=? 0x39).

Fixpoint read_digits (s : jsstring) (acc : Z) : Z * jsstring :=
  match s with
  | c :: s' =>
      if is_digit c then read_digits s' (10 * acc + Z.of_N (c - 0x30))%Z
      else (acc, s)
  | [] => (acc, [])
  end.

(** [0] or a digit sequence without leading zero, with an optional sign. *)
Definition read_int (s : jsstring) : option (Z * jsstring) :=
  let '(neg, s) :=
    match s with
    | c :: s' => if c =? 0x2D then (true, s') else (false, s)
    | [] => (false, s)
    end in
  match s with
  | c :: s' =>
      if c =? 0x30 then Some (0%Z, s')
      else if is_digit c then
        let '(n, rest) := read_digits s 0%Z in
        Some (if neg then (- n)%Z else n, rest)
      else None
  | [] => None
  end.

Fixpoint read_value (fuel : nat) (s : jsstring) : option (jsval * jsstring) :=
  match fuel with
  | O => None
  | S fuel =>
      let s := skip_ws s in
      if startsWith (lit "null") s then Some (JNull, drop 4 s)
      else if startsWith (lit "true") s then Some (JBool true, drop 4 s)
      else if startsWith (lit "false") s then Some (JBool false, drop 5 s)
      else
        match s with
        | [] => None
        | c :: r =>
            if c =? 0x22 then
              '(str, r') ← read_string r []; Some (JStr str, r')
            else if c =? 0x5B then
              match skip_ws r with
              | c' :: r' =>
                  if c' =? 0x5D then Some (JArr [], r')
                  else '(l, r'') ← read_elements fuel r; Some (JArr l, r'')
              | [] => None
              end
            else if c =? 0x7B then
              match skip_ws r with
              | c' :: r' =>
                  if c' =? 0x7D then Some (JObj ∅, r')
                  else '(m, r'') ← read_members fuel r; Some (JObj m, r'')
              | [] => None
              end
            else
              '(n, r') ← read_int s; Some (JNum n, r')
        end
  end
with read_elements (fuel : nat) (s : jsstring)
  : option (list jsval * jsstring) :=
  match fuel with
  | O => None
  | S fuel =>
      '(v, r) ← read_value fuel s;
      match skip_ws r with
      | c :: r' =>
          if c =? 0x5D then Some ([v], r')
          else if c =? 0x2C then
            '(l, r'') ← read_elements fuel r'; Some (v :: l, r'')
          else None
      | [] => None
      end
  end
with read_members (fuel : nat) (s : jsstring)
  : option (gmap jsstring jsval * jsstring) :=
  match fuel with
  | O => None
  | S fuel =>
      match skip_ws s with
      | q :: r0 =>
          if q =? 0x22 then
            '(k, r1) ← read_string r0 [];
            match skip_ws r1 with
            | colon :: r2 =>
                if colon =? 0x3A then
                  '(v, r3) ← read_value fuel r2;
                  match skip_ws r3 with
                  | c :: r4 =>
                      if c =? 0x7D then Some ({[ k := v ]}, r4)
                      else if c =? 0x2C then
                        (* a later member of the same name wins *)
                        '(m, r5) ← read_members fuel r4;
                        Some (m ∪ {[ k := v ]}, r5)
                      else None
                  | [] => None
                  end
                else None
            | [] => None
            end
          else None
      | [] => None
      end
  end.

Definition parse (s : jsstring) : option jsval :=
  '(v, rest) ← read_value (S (length s)) s;
  match skip_ws rest with
  | [] => Some v
  | _ :: _ => None
  end.

Definition spaces (n : nat) : jsstring := repeat 0x20 n.

Definition quote (s : jsstring) : jsstring := [0x22] ++ s ++ [0x22].

Fixpoint join (sep : jsstring) (parts : list jsstring) : jsstring :=
  match parts with
  | [] => []
  | [p] => p
  | p :: ps => p ++ sep ++ join sep ps
  end.

(** [JSON.stringify(v, null, 2)] at indentation [ind]. A property whose
    value is [undefined] is left out; [undefined] in an array prints as
    [null]. *)
Fixpoint print (ind : nat) (v : jsval) : jsstring :=
  match v with
  | JUndefined | JNull => lit "null"
  | JBool true => lit "true"
  | JBool false => lit "false"
  | JNum n => of_Z n
  | JStr s => quote s
  | JArr [] => lit "[]"
  | JArr l =>
      lit "[" ++ [0x0A]
      ++ join (lit "," ++ [0x0A])
              (map (fun x => spaces (ind + 2) ++ print (ind + 2) x) l)
      ++ [0x0A] ++ spaces ind ++ lit "]"
  | JObj m =>
      match
        map_fold (fun k x acc =>
                    match x with
                    | JUndefined => acc
                    | _ => (spaces (ind + 2) ++ quote k ++ lit ": "
                            ++ print (ind + 2) x) :: acc
                    end) [] m
      with
      | [] => lit "{}"
      | members =>
          lit "{" ++ [0x0A] ++ join (lit "," ++ [0x0A]) members
          ++ [0x0A] ++ spaces ind ++ lit "}"
      end
  end.

Definition json : JsonLib :=
  {| JSON_parse := parse; JSON_stringify := print 0 |}.

End MiniJson.

(** ** Restarts, persistence and the order of requests *)

Module Process.

Section WithJson.
Context `{JSON : JsonLib}.

(** The file holds what [saveThreads] writes for the store in memory. *)
Definition synced (w : World) : Prop :=
  file w = Some (JSON_stringify (JObj (threads w))).

(** The process of part_000 once its module has been evaluated on a disk
    where THREADS_FILE is [file]: lines 16-19 unlink the file, lines 54-61
    load [threads]. [None] when [threads] is not a plain object. *)
Definition boot_part_000 (file : option jsstring) : option World :=
  match Versioned.startup file with
  | JObj m =>
      Some {| threads := m; file := Versioned.resetAll file; writes := 0;
              requests := []; acks := 0; errlog := [] |}
  | _ => None
  end.

End WithJson.

(** Stripping as the specification words it, "strip the mention token and
    surrounding whitespace": the leftmost mention goes together with the
    white space on either side of it, and the ends of what is left are
    trimmed. To be compared with what the handler does at line 151,
    [text.replace(mention, "").trim()]. *)
Definition strip_mention_and_surrounding_space (p s : jsstring) : jsstring :=
  match indexOf p s with
  | Some pos =>
      trim (trimEnd (take pos s) ++ trimStart (drop (pos + length p) s))
  | None => s
  end.

(** The three requests [runAssistant] makes on a session, in the order of
    lines 101-116 of part_000 and 79-91 of index.js. *)
Definition conversation (threadId : jsval) (ASSISTANT_ID userText : jsstring)
  : list request :=
  [MessagesCreate threadId (lit "user") userText;
   RunsCreateAndPoll threadId ASSISTANT_ID;
   MessagesList threadId 5].

Definition is_send (r : request) : bool :=
  match r with SendMessage _ _ _ => true | _ => false end.

(** The updates [bodies] posted to the webhook route and handled one after
    the other, each to its end (lines 134-162 of part_000). *)
Definition serve `{JSON : JsonLib}
    (PROMPT_VERSION ASSISTANT_ID BOT_USERNAME : jsstring) (services : Services)
    (bodies : list (option message)) (w : World) : World :=
  foldl (fun w body =>
           Versioned.webhook PROMPT_VERSION ASSISTANT_ID BOT_USERNAME services
             body w) w bodies.

(** [w'] differs from [w] in its log of requests at most. *)
Definition only_requests (w w' : World) : Prop :=
  threads w' = threads w /\ file w' = file w /\ writes w' = writes w
  /\ acks w' = acks w /\ errlog w' = errlog w.

(** The code units [Number::toString] prints for an integer: the minus sign
    and the ten digits. *)
Definition is_numeral (c : N) : bool :=
  (c =? 0x2D) || ((0x30 <=? c) && (c <=? 0x39)).

End Process.
Export Process.

(** ** Sample data *)

Module Demo.

Definition world0 : World :=
  {| threads := ∅; file := None; writes := 0; requests := [];
     acks := 0; errlog := [] |}.

Definition with_threads (t : gmap jsstring jsval) : World := set_threads t world0.

(** An assistant service that numbers its sessions, ends every run with
    [status] and lists [data]; a transport that delivers. *)
Definition services (status : jsstring) (data : list (gmap jsstring jsval))
  : Services :=
  {| threads_create := fun n => Some (lit "thread_" ++ of_Z (Z.of_nat n));
     messages_create := fun _ => true;
     runs_createAndPoll := fun _ => Some status;
     messages_list := fun _ => Some data;
     sendMessage := fun _ => true |}.

Definition ASSISTANT_ID : jsstring := lit "asst_1".

(** [{ role, content: [{ type: "text", text: { value } }] }] *)
Definition turn (role value : jsstring) : gmap jsstring jsval :=
  <[lit "role" := JStr role]>
  (<[lit "content" :=
       JArr [JObj (<[lit "type" := JStr (lit "text")]>
                   (<[lit "text" := JObj {[ lit "value" := JStr value ]}]> ∅))]]> ∅).

(** An assistant turn that carries an image and no text. *)
Definition image_turn : gmap jsstring jsval :=
  <[lit "role" := JStr (lit "assistant")]>
  (<[lit "content" :=
       JArr [JObj {[ lit "type" := JStr (lit "image_file") ]}]]> ∅).

Definition msg (type : jsstring) (t : jsstring) : message :=
  {| message_id := 11; chat_id := 7; chat_type := type;
     from_id := Some 42%Z; text := Some t |}.

(** The key of chat 7 and user 42, ["7:42"]. *)
Definition key : jsstring := getThreadKey 7 (Some 42%Z).

(** A store written by this version, one written by index.js, and one
    written under an earlier version. *)
Definition current_world : World :=
  with_threads {[ key := Versioned.record Versioned.PROMPT_VERSION
                           (lit "thread_abc") ]}.

Definition legacy_world : World :=
  with_threads {[ key := JStr (lit "thread_old") ]}.

Definition stale_world : World :=
  with_threads {[ key := Versioned.record (lit "1.1") (lit "thread_abc") ]}.

End Demo.

(** * Properties *)

(** ** Strings: occurrences, first occurrence, trimming *)

Section JsStringFacts.
Implicit Types p s pre post : jsstring.

Lemma startsWith_true p s :
  startsWith p s = true <-> exists post, s = p ++ post.
Proof.
  revert s. induction p as [|a p IH]; intros s; simpl.
  - split; [intros _; by exists s | done].
  - destruct s as [|b s]; simpl.
    + split; [done | intros [post H]; discriminate].
    + rewrite andb_true_iff, N.eqb_eq, IH. split.
      * intros [-> [post ->]]. by exists post.
      * intros [post H]. injection H as -> ->. eauto.
Qed.

Lemma indexOf_from_Some p s i n :
  indexOf_from p s i = Some n ->
  exists k, n = (i + k)%nat /\ (k <= length s)%nat
            /\ startsWith p (drop k s) = true
            /\ forall j, (j < k)%nat -> startsWith p (drop j s) = false.
Proof.
  revert i. induction s as [|c s IH]; intros i; simpl.
  - destruct (startsWith p []) eqn:E; [|done].
    intros [= <-]. exists 0%nat. repeat split; [lia | lia | done | lia].
  - destruct (startsWith p (c :: s)) eqn:E.
    + intros [= <-]. exists 0%nat. repeat split; [lia | lia | done | lia].
    + intros H. destruct (IH _ H) as (k & -> & Hk & Hat & Hbefore).
      exists (S k). repeat split; [lia | lia | done |].
      intros [|j] Hj; [done | apply Hbefore; lia].
Qed.

Lemma indexOf_from_None p s i :
  indexOf_from p s i = None -> forall k, startsWith p (drop k s) = false.
Proof.
  revert i. induction s as [|c s IH]; intros i; simpl.
  - destruct (startsWith p []) eqn:E; [done|].
    intros _ k. by rewrite drop_nil.
  - destruct (startsWith p (c :: s)) eqn:E; [done|].
    intros H [|k]; [done | simpl; by eapply IH].
Qed.

Lemma occurs_at p pre post :
  startsWith p (drop (length pre) (pre ++ p ++ post)) = true.
Proof. rewrite drop_app_length. apply startsWith_true. by exists post. Qed.

Lemma includes_true p s : includes p s = true <-> occurs p s.
Proof.
  unfold includes, indexOf. split.
  - destruct (indexOf_from p s 0) as [n|] eqn:E; [intros _ | done].
    apply indexOf_from_Some in E as (k & _ & _ & Hat & _).
    apply startsWith_true in Hat as [post Hpost].
    exists (take k s), post. by rewrite <- Hpost, take_drop.
  - intros (pre & post & ->).
    destruct (indexOf_from p _ 0) eqn:E; [done|].
    pose proof (indexOf_from_None _ _ _ E (length pre)) as H.
    by rewrite occurs_at in H.
Qed.

Lemma includes_false p s : includes p s = false <-> ~ occurs p s.
Proof.
  rewrite <- includes_true. destruct (includes p s); split; congruence.
Qed.

(** [replace] cuts out the leftmost occurrence and nothing else. *)
Lemma replace_first p r s :
  occurs p s ->
  exists pre post,
    s = pre ++ p ++ post
    /\ replace p r s = pre ++ r ++ post
    /\ forall pre' post', s = pre' ++ p ++ post' ->
                          (length pre <= length pre')%nat.
Proof.
  intros Hocc. apply includes_true in Hocc.
  unfold includes, replace, indexOf in *.
  destruct (indexOf_from p s 0) as [n|] eqn:E; [|done].
  apply indexOf_from_Some in E as (k & -> & Hk & Hat & Hbefore). simpl.
  apply startsWith_true in Hat as [post Hpost].
  exists (take k s), post.
  assert (length (take k s) = k) as Hlen by (rewrite length_take; lia).
  repeat split.
  - by rewrite <- Hpost, take_drop.
  - do 2 f_equal. rewrite <- drop_drop, Hpost. apply drop_app_length.
  - intros pre' post' Hs. rewrite Hlen.
    destruct (decide (length pre' < k)%nat) as [Hlt|]; [|lia].
    apply Hbefore in Hlt. rewrite Hs, occurs_at in Hlt. done.
Qed.

Lemma replace_absent p r s : ~ occurs p s -> replace p r s = s.
Proof.
  intros H. apply includes_false in H. unfold includes, replace in *.
  by destruct (indexOf p s).
Qed.

Lemma occurs_rev p s : occurs p s -> occurs (rev p) (rev s).
Proof.
  intros (pre & post & ->). exists (rev post), (rev pre).
  by rewrite !rev_app_distr, <- app_assoc.
Qed.

Lemma trimStart_split s :
  exists ws, s = ws ++ trimStart s /\ forallb is_ws ws = true.
Proof.
  induction s as [|c s (ws & IH & Hws)]; simpl; [by exists []|].
  destruct (is_ws c) eqn:Hc; [| by exists []].
  exists (c :: ws). simpl. rewrite <- IH, Hc. done.
Qed.

Lemma forallb_rev (f : N -> bool) (l : jsstring) :
  forallb f (rev l) = forallb f l.
Proof.
  induction l as [|a l IH]; [done|]. simpl.
  rewrite forallb_app, IH. simpl. by rewrite andb_true_r, andb_comm.
Qed.

Lemma trimEnd_split s :
  exists ws, s = trimEnd s ++ ws /\ forallb is_ws ws = true.
Proof.
  unfold trimEnd. destruct (trimStart_split (rev s)) as (ws & H & Hws).
  exists (rev ws). split; [|by rewrite forallb_rev].
  by rewrite <- rev_app_distr, <- H, rev_involutive.
Qed.

(** [trim] removes a run of white space at each end and nothing else. *)
Lemma trim_split s :
  exists lead trail, s = lead ++ trim s ++ trail
    /\ forallb is_ws lead = true /\ forallb is_ws trail = true.
Proof.
  destruct (trimStart_split s) as (lead & Hs & Hlead).
  destruct (trimEnd_split (trimStart s)) as (trail & Ht & Htrail).
  exists lead, trail. unfold trim. by rewrite <- Ht.
Qed.

Lemma occurs_trimStart p s :
  (forall c, head p = Some c -> is_ws c = false) -> p <> [] ->
  occurs p s -> occurs p (trimStart s).
Proof.
  intros Hhead Hne. induction s as [|c s IH]; simpl; [done|].
  destruct (is_ws c) eqn:Hc; [|done].
  intros (pre & post & Hs). apply IH.
  destruct pre as [|c' pre]; simpl in Hs.
  - destruct p as [|a p]; [done|]. injection Hs as -> _.
    rewrite (Hhead a) in Hc; done.
  - injection Hs as _ ->. by exists pre, post.
Qed.

Lemma occurs_trimStart_inv p s : occurs p (trimStart s) -> occurs p s.
Proof.
  intros (pre & post & H). destruct (trimStart_split s) as (ws & Hs & _).
  exists (ws ++ pre), post. by rewrite Hs at 1; rewrite H, <- app_assoc.
Qed.

Lemma head_rev_last (p : jsstring) : head (rev p) = last p.
Proof.
  induction p as [|a p IH] using rev_ind; [done|].
  by rewrite rev_app_distr, last_snoc.
Qed.

Lemma occurs_trimEnd p s :
  (forall c, last p = Some c -> is_ws c = false) -> p <> [] ->
  occurs p s -> occurs p (trimEnd s).
Proof.
  intros Hlast Hne Hocc. unfold trimEnd.
  rewrite <- (rev_involutive p). apply occurs_rev.
  apply occurs_trimStart.
  - intros c. rewrite head_rev_last. apply Hlast.
  - intros H. apply Hne. by rewrite <- (rev_involutive p), H.
  - by apply occurs_rev.
Qed.

Lemma occurs_trimEnd_inv p s : occurs p (trimEnd s) -> occurs p s.
Proof.
  intros (pre & post & H). destruct (trimEnd_split s) as (ws & Hs & _).
  exists pre, (post ++ ws). rewrite Hs at 1. rewrite H.
  by rewrite <- !app_assoc.
Qed.

(** Trimming does not change whether a token occurs, as long as the token
    neither starts nor ends with white space. *)
Lemma includes_trim p s :
  (forall c, head p = Some c -> is_ws c = false) ->
  (forall c, last p = Some c -> is_ws c = false) -> p <> [] ->
  includes p (trim s) = includes p s.
Proof.
  intros Hhead Hlast Hne. apply eq_true_iff_eq. rewrite !includes_true.
  unfold trim. split.
  - intros H. by apply occurs_trimStart_inv, occurs_trimEnd_inv.
  - intros H. by apply occurs_trimEnd, occurs_trimStart.
Qed.

(** What [trim] returns has no white space at either end. *)
Lemma trimStart_head s c : head (trimStart s) = Some c -> is_ws c = false.
Proof.
  induction s as [|a s IH]; simpl; [done|].
  destruct (is_ws a) eqn:E; [done|]. simpl. by intros [= <-].
Qed.

Lemma trim_head s c : head (trim s) = Some c -> is_ws c = false.
Proof.
  unfold trim. destruct (trimEnd_split (trimStart s)) as (ws & Hs & _).
  intros H. apply (trimStart_head s).
  rewrite Hs. by destruct (trimEnd (trimStart s)).
Qed.

Lemma trim_last s c : last (trim s) = Some c -> is_ws c = false.
Proof.
  unfold trim, trimEnd. rewrite <- head_rev_last, rev_involutive.
  apply trimStart_head.
Qed.

End JsStringFacts.

(** ** The session resolver of part_000 *)

Section Resolver.
Context `{JSON : JsonLib}.
Variable PROMPT_VERSION : jsstring.
Variable services : Services.
Implicit Types (chatId : Z) (userId : option Z) (w : World).

#[local] Abbreviation resolve :=
  (Versioned.getOrCreateThread PROMPT_VERSION services).
#[local] Abbreviation record := (Versioned.record PROMPT_VERSION).
#[local] Abbreviation reusable := (Versioned.reusable PROMPT_VERSION).
#[local] Abbreviation created := (Versioned.created PROMPT_VERSION).

Lemma is_str_true s v : is_str s v = true <-> v = JStr s.
Proof.
  destruct v; simpl; try (split; [done | intros [=]]).
  rewrite bool_decide_eq_true. split; [by intros -> | by intros [= ->]].
Qed.

Lemma resolve_hit chatId userId w :
  reusable (default JUndefined (threads w !! getThreadKey chatId userId)) = true ->
  resolve chatId userId w
  = (Ok (get (lit "thread_id")
           (default JUndefined (threads w !! getThreadKey chatId userId))), w).
Proof.
  unfold Versioned.getOrCreateThread. intros H.
  unfold mbind, M_bind, read. by rewrite H.
Qed.

Lemma resolve_miss chatId userId w :
  reusable (default JUndefined (threads w !! getThreadKey chatId userId)) = false ->
  resolve chatId userId w
  = match threads_create services (length (requests w)) with
    | Some id => (Ok (JStr id), created (getThreadKey chatId userId) id w)
    | None => (Throw (ApiError ThreadsCreate), log_request ThreadsCreate w)
    end.
Proof.
  unfold Versioned.getOrCreateThread. intros H.
  unfold mbind, M_bind, read. rewrite H. unfold await.
  by destruct (threads_create services _).
Qed.

Lemma reusable_version v :
  reusable v = true -> get (lit "prompt_version") v = JStr PROMPT_VERSION.
Proof.
  unfold Versioned.reusable. rewrite !andb_true_iff. intros [_ H].
  by apply is_str_true.
Qed.

Lemma log_request_neq r w : requests (log_request r w) <> requests w.
Proof.
  simpl. intros H. apply (f_equal length) in H.
  rewrite length_app in H. simpl in H. lia.
Qed.

(** C1. [getOrCreateThread] hands back a stored handle without calling the
    assistant service only when the key has a record whose [prompt_version]
    is the active one. On a miss, and on a record whose [prompt_version] is
    missing or different, it asks the service for a session, stores it with
    the active version, writes the file and returns the new handle. A handle
    it returns is therefore never one stored under another version. *)
Theorem getOrCreateThread_version_check chatId userId w r w' :
  resolve chatId userId w = (r, w') ->
  let key := getThreadKey chatId userId in
  (* reuse without a service call: only for a record of the active version *)
  (requests w' = requests w ->
     exists rec, threads w !! key = Some rec
       /\ get (lit "prompt_version") rec = JStr PROMPT_VERSION
       /\ r = Ok (get (lit "thread_id") rec) /\ w' = w)
  (* every other case goes to the service *)
  /\ (threads w !! key = None
      \/ (exists rec, threads w !! key = Some rec
            /\ get (lit "prompt_version") rec <> JStr PROMPT_VERSION) ->
      requests w' = requests w ++ [ThreadsCreate]
      /\ match threads_create services (length (requests w)) with
         | Some id =>
             r = Ok (JStr id)
             /\ threads w' = <[key := record id]> (threads w)
             /\ file w' = Some (JSON_stringify (JObj (threads w')))
             /\ writes w' = S (writes w)
         | None =>
             r = Throw (ApiError ThreadsCreate)
             /\ threads w' = threads w /\ file w' = file w
             /\ writes w' = writes w
         end)
  (* a returned handle is of the active version or new *)
  /\ (forall h, r = Ok h ->
       (exists rec, threads w !! key = Some rec
          /\ get (lit "prompt_version") rec = JStr PROMPT_VERSION
          /\ h = get (lit "thread_id") rec /\ requests w' = requests w)
       \/ (exists id, h = JStr id
             /\ threads_create services (length (requests w)) = Some id
             /\ requests w' = requests w ++ [ThreadsCreate]
             /\ threads w' !! key = Some (record id))).
Proof.
  intros Hrun. cbv zeta.
  destruct (reusable (default JUndefined
              (threads w !! getThreadKey chatId userId))) eqn:Hre.
  - (* cache hit *)
    rewrite (resolve_hit _ _ _ Hre) in Hrun. injection Hrun as <- <-.
    pose proof (reusable_version _ Hre) as Hver.
    destruct (threads w !! getThreadKey chatId userId) as [rec|] eqn:Hk;
      [|done]. simpl in *.
    split; [|split].
    + intros _. exists rec. by repeat split.
    + intros [? | (rec' & [= <-] & Hne)]; done.
    + intros h [= <-]. left. exists rec. by repeat split.
  - (* miss or stale record *)
    rewrite (resolve_miss _ _ _ Hre) in Hrun.
    destruct (threads_create services (length (requests w))) as [id|] eqn:Hup;
      injection Hrun as <- <-.
    + split; [|split].
      * intros Heq. by apply log_request_neq in Heq.
      * intros _. split; [done|]. by repeat split.
      * intros h [= <-]. right. exists id. repeat split.
        simpl. apply lookup_insert_eq.
    + split; [|split].
      * intros Heq. by apply log_request_neq in Heq.
      * intros _. by repeat split.
      * intros h [=].
Qed.

(** A record written under another version is not reused, whatever handle
    it holds. *)
Lemma record_of_other_version_not_reusable other id :
  other <> PROMPT_VERSION ->
  reusable (Versioned.record other id) = false.
Proof.
  intros Hne. unfold Versioned.reusable, Versioned.record, get.
  rewrite lookup_insert_eq, lookup_insert_ne, lookup_insert_eq by done.
  simpl. rewrite bool_decide_eq_false_2 by done. apply andb_false_r.
Qed.

(** C2. A key whose stored value is a bare handle string, as index.js
    wrote it, is stale: the handle is not returned; a session is requested
    from the service and, when the service answers, its record with the
    active version replaces the string. *)
Theorem getOrCreateThread_legacy_string chatId userId w bare :
  threads w !! getThreadKey chatId userId = Some (JStr bare) ->
  let key := getThreadKey chatId userId in
  exists r w',
    resolve chatId userId w = (r, w')
    /\ requests w' = requests w ++ [ThreadsCreate]
    /\ match threads_create services (length (requests w)) with
       | Some id =>
           r = Ok (JStr id)
           /\ threads w' !! key = Some (record id)
           /\ get (lit "prompt_version") (record id) = JStr PROMPT_VERSION
           /\ get (lit "thread_id") (record id) = JStr id
           /\ file w' = Some (JSON_stringify (JObj (threads w')))
       | None => r = Throw (ApiError ThreadsCreate) /\ threads w' = threads w
       end.
Proof.
  intros Hk key.
  assert (reusable (default JUndefined (threads w !! key)) = false) as Hre.
  { unfold key. rewrite Hk. simpl. unfold Versioned.reusable. simpl.
    by rewrite andb_false_r. }
  rewrite (resolve_miss _ _ _ Hre).
  destruct (threads_create services (length (requests w))) as [id|].
  - eexists _, _. split; [done|]. split; [done|].
    split; [done|]. split; [apply lookup_insert_eq|].
    split; [|split; [|done]].
    + unfold Versioned.record, get.
      rewrite lookup_insert_ne by done. by rewrite lookup_insert_eq.
    + unfold Versioned.record, get. by rewrite lookup_insert_eq.
  - eexists _, _. by repeat split.
Qed.

(** C3. Two calls in a row for the same key, under the same version: both
    return the same handle, the second one changes nothing (no store
    update, no write, no request), and the file is written at most once. *)
Theorem getOrCreateThread_twice chatId userId w h w1 :
  issues_handles services ->
  resolve chatId userId w = (Ok h, w1) ->
  resolve chatId userId w1 = (Ok h, w1)
  /\ (writes w1 <= S (writes w))%nat.
Proof.
  intros Hup Hrun. set (key := getThreadKey chatId userId).
  destruct (reusable (default JUndefined (threads w !! key))) eqn:Hre.
  - rewrite (resolve_hit _ _ _ Hre) in Hrun. injection Hrun as <- <-.
    rewrite (resolve_hit _ _ _ Hre). split; [done | lia].
  - rewrite (resolve_miss _ _ _ Hre) in Hrun.
    destruct (threads_create services (length (requests w))) as [id|] eqn:Hid;
      [|done].
    injection Hrun as <- <-. split; [|simpl; lia].
    assert (threads (created key id w) !! key = Some (record id)) as Hk
      by (simpl; apply lookup_insert_eq).
    assert (get (lit "thread_id") (record id) = JStr id) as Hid'
      by (unfold Versioned.record, get; by rewrite lookup_insert_eq).
    assert (reusable (record id) = true) as Hre'.
    { unfold Versioned.reusable. rewrite Hid'.
      unfold Versioned.record at 2. unfold get.
      rewrite lookup_insert_ne by done. rewrite lookup_insert_eq. simpl.
      rewrite bool_decide_eq_true_2 by done.
      apply Hup in Hid. by destruct id. }
    rewrite resolve_hit; fold key; rewrite Hk; [|exact Hre'].
    change (default JUndefined (Some (record id))) with (record id).
    by rewrite Hid'.
Qed.

End Resolver.

(** ** The conversation driver *)

(** Runs [runAssistant], already unfolded, through its three service calls:
    [Hres] is the outcome of [getOrCreateThread], [Happend] the answer to
    the append and [Hrun] the answer to the run. *)
Ltac run_driver Hres Happend Hrun :=
  unfold mbind, M_bind at 1; rewrite Hres;
  unfold M_bind at 1, await at 1, succeeded; rewrite Happend;
  unfold M_bind at 1, await at 1; simpl requests;
  rewrite length_app, Nat.add_1_r, Hrun;
  match goal with
  | |- context [negb (bool_decide (?status = _))] =>
      destruct (negb (bool_decide (status = lit "completed"))); [done|]
  end;
  unfold M_bind, await, mret, M_ret; simpl requests;
  rewrite !length_app, !Nat.add_1_r;
  match goal with
  | |- context [messages_list ?s ?n] => by destruct (messages_list s n)
  end.

Section Driver.
Context `{JSON : JsonLib}.
Variables PROMPT_VERSION ASSISTANT_ID : jsstring.
Variable services : Services.
Implicit Types (chatId : Z) (userId : option Z) (w : World).

#[local] Abbreviation resolve :=
  (Versioned.getOrCreateThread PROMPT_VERSION services).
#[local] Abbreviation converse :=
  (Versioned.runAssistant PROMPT_VERSION ASSISTANT_ID services).

(** A turn appended to a session stays in its history whatever is requested
    for the run afterwards. *)
Lemma history_append_then_run tid role content aid rs :
  history tid (rs ++ [MessagesCreate tid role content;
                      RunsCreateAndPoll tid aid])
  = history tid rs ++ [(role, content)].
Proof.
  unfold history. rewrite omap_app. f_equal. simpl.
  by rewrite bool_decide_eq_true_2.
Qed.

(** The steps of [runAssistant] after the session is resolved and the user
    turn appended, up to the end of the run. *)
Lemma runAssistant_until_run chatId userId userText w tid w1 status :
  resolve chatId userId w = (Ok tid, w1) ->
  messages_create services (length (requests w1)) = true ->
  runs_createAndPoll services (S (length (requests w1))) = Some status ->
  let w2 := log_request (RunsCreateAndPoll tid ASSISTANT_ID)
              (log_request (MessagesCreate tid (lit "user") userText) w1) in
  converse chatId userId userText w
  = if negb (bool_decide (status = lit "completed"))
    then (Throw (Error (lit "Assistant run failed: " ++ status)), w2)
    else
      match messages_list services (S (S (length (requests w1)))) with
      | Some data =>
          (Ok (or_else (text_value (find is_assistant data))
                       (JStr (lit "No response."))),
           log_request (MessagesList tid 5) w2)
      | None => (Throw (ApiError (MessagesList tid 5)),
                 log_request (MessagesList tid 5) w2)
      end.
Proof.
  intros Hres Happend Hrun w2. unfold Versioned.runAssistant.
  run_driver Hres Happend Hrun.
Qed.

(** C4. When the run ends in a status other than ["completed"],
    [runAssistant] throws an error whose message carries that status; it
    returns no reply; the only requests it made after resolving the session
    are the append of the user turn and the run, so the turn is still in
    the history of the session. *)
Theorem runAssistant_run_not_completed chatId userId userText w tid w1 status :
  resolve chatId userId w = (Ok tid, w1) ->
  messages_create services (length (requests w1)) = true ->
  runs_createAndPoll services (S (length (requests w1))) = Some status ->
  status <> lit "completed" ->
  exists w2,
    converse chatId userId userText w
    = (Throw (Error (lit "Assistant run failed: " ++ status)), w2)
    /\ requests w2
       = requests w1 ++ [MessagesCreate tid (lit "user") userText;
                         RunsCreateAndPoll tid ASSISTANT_ID]
    /\ history tid (requests w2)
       = history tid (requests w1) ++ [(lit "user", userText)]
    /\ threads w2 = threads w1 /\ file w2 = file w1.
Proof.
  intros Hres Happend Hrun Hstatus.
  rewrite (runAssistant_until_run _ _ userText _ _ _ _ Hres Happend Hrun).
  rewrite bool_decide_eq_false_2 by done. simpl negb. cbv iota.
  eexists. split; [done|]. simpl requests. rewrite <- app_assoc. simpl.
  split; [done|]. split; [apply history_append_then_run | done].
Qed.

(** C8. After a completed run, when the listed turns hold none by the
    assistant, or the first one by the assistant has no text value (the
    chain [content?.[0]?.text?.value] then reads [undefined], which is
    falsy, as is an empty value), [runAssistant] returns the fixed string
    ["No response."] and does not throw. *)
Theorem runAssistant_fallback chatId userId userText w tid w1 data :
  resolve chatId userId w = (Ok tid, w1) ->
  messages_create services (length (requests w1)) = true ->
  runs_createAndPoll services (S (length (requests w1)))
  = Some (lit "completed") ->
  messages_list services (S (S (length (requests w1)))) = Some data ->
  find is_assistant data = None
  \/ (exists m, find is_assistant data = Some m
                /\ truthy (text_value (Some m)) = false) ->
  exists w2,
    converse chatId userId userText w = (Ok (JStr (lit "No response.")), w2).
Proof.
  intros Hres Happend Hrun Hlist Hnone.
  rewrite (runAssistant_until_run _ _ userText _ _ _ _ Hres Happend Hrun).
  rewrite bool_decide_eq_true_2 by done. simpl negb. cbv iota.
  rewrite Hlist. eexists. f_equal. f_equal. unfold or_else.
  destruct Hnone as [-> | (m & -> & ->)]; done.
Qed.

End Driver.

(** ** The inbound message gate *)

Section Gate.
Variable BOT_USERNAME : jsstring.
Implicit Types (msg : message) (raw : jsstring).

Lemma mention_head c : head (mention BOT_USERNAME) = Some c -> is_ws c = false.
Proof. by intros [= <-]. Qed.

Lemma mention_last c :
  (forall c, last BOT_USERNAME = Some c -> is_ws c = false) ->
  last (mention BOT_USERNAME) = Some c -> is_ws c = false.
Proof.
  intros Hlast. unfold mention.
  destruct BOT_USERNAME as [|b B] eqn:E.
  - by intros [= <-].
  - change (lit "@" ++ b :: B) with ([64] ++ b :: B).
    rewrite last_app. destruct (last (b :: B)) eqn:El.
    + intros [= <-]. by apply Hlast.
    + by apply last_None in El.
Qed.

Lemma mention_nonempty : (mention BOT_USERNAME) <> [].
Proof. done. Qed.

(** The gate in a private chat. *)
Lemma gate_private msg raw :
  chat_type msg = lit "private" -> text msg = Some raw ->
  gate BOT_USERNAME (Some msg) = match raw with [] => None | _ => Some (msg, trim raw) end.
Proof.
  intros Htype Htext. unfold gate. rewrite Htext.
  destruct raw; [done|]. by rewrite bool_decide_eq_true_2.
Qed.

(** The gate in any other chat. *)
Lemma gate_group msg raw :
  chat_type msg <> lit "private" -> text msg = Some raw ->
  gate BOT_USERNAME (Some msg)
  = if includes (mention BOT_USERNAME) (trim raw)
    then Some (msg, trim (replace (mention BOT_USERNAME) [] (trim raw)))
    else None.
Proof.
  intros Htype Htext. unfold gate. rewrite Htext.
  destruct raw as [|c raw]; [done|].
  rewrite bool_decide_eq_false_2 by done. simpl negb. cbv iota.
  by destruct (includes (mention BOT_USERNAME) (trim (c :: raw))).
Qed.

(** Whether the (mention BOT_USERNAME) occurs is not changed by the first [trim], for a
    user name that does not end in white space. *)
Lemma mention_occurs_trim raw :
  (forall c, last BOT_USERNAME = Some c -> is_ws c = false) ->
  occurs (mention BOT_USERNAME) (trim raw) <-> occurs (mention BOT_USERNAME) raw.
Proof.
  intros Hlast. rewrite <- !includes_true.
  rewrite includes_trim; [done | apply mention_head | | apply mention_nonempty].
  intros c. by apply mention_last.
Qed.

(** C5, as the code has it. In a private chat the text passed on is the
    message text without its leading and trailing white space; nothing else
    is changed, and no (mention BOT_USERNAME) is removed. *)
Theorem gate_private_trims msg raw :
  chat_type msg = lit "private" -> text msg = Some raw -> raw <> [] ->
  gate BOT_USERNAME (Some msg) = Some (msg, trim raw)
  /\ exists lead trail, raw = lead ++ trim raw ++ trail
       /\ forallb is_ws lead = true /\ forallb is_ws trail = true.
Proof.
  intros Htype Htext Hraw. rewrite (gate_private _ _ Htype Htext).
  split; [by destruct raw|]. apply trim_split.
Qed.

(** An update the gate turns away leaves no trace but the acknowledgement:
    no request, no reply, nothing logged. *)
Lemma webhook_skip `{JSON : JsonLib} PROMPT_VERSION ASSISTANT_ID services
    body w :
  gate BOT_USERNAME body = None ->
  Versioned.webhook PROMPT_VERSION ASSISTANT_ID BOT_USERNAME services body w
  = ack w.
Proof. intros H. unfold Versioned.webhook. by rewrite H. Qed.

(** An update the gate lets through is handed to [runAssistant] with the
    text the gate computed; when that throws, the error is logged and no
    reply is sent. *)
Lemma webhook_failure `{JSON : JsonLib} PROMPT_VERSION ASSISTANT_ID services
    body w msg text e w' :
  gate BOT_USERNAME body = Some (msg, text) ->
  Versioned.runAssistant PROMPT_VERSION ASSISTANT_ID services
    (chat_id msg) (from_id msg) text (ack w) = (Throw e, w') ->
  Versioned.webhook PROMPT_VERSION ASSISTANT_ID BOT_USERNAME services body w
  = console_error e w'.
Proof.
  intros Hgate Hrun. unfold Versioned.webhook. rewrite Hgate.
  unfold mbind, M_bind. by rewrite Hrun.
Qed.

(** When it returns, the reply goes out as an answer to the message. *)
Lemma webhook_reply `{JSON : JsonLib} PROMPT_VERSION ASSISTANT_ID services
    body w msg text reply w' :
  gate BOT_USERNAME body = Some (msg, text) ->
  Versioned.runAssistant PROMPT_VERSION ASSISTANT_ID services
    (chat_id msg) (from_id msg) text (ack w) = (Ok reply, w') ->
  requests (Versioned.webhook PROMPT_VERSION ASSISTANT_ID BOT_USERNAME
              services body w)
  = requests w' ++ [SendMessage (chat_id msg) reply (message_id msg)].
Proof.
  intros Hgate Hrun. unfold Versioned.webhook. rewrite Hgate.
  unfold mbind, M_bind. rewrite Hrun. unfold await, succeeded.
  by destruct (sendMessage services _).
Qed.

Lemma index_js_webhook_skip `{JSON : JsonLib} ASSISTANT_ID services body w :
  gate BOT_USERNAME body = None ->
  IndexJs.webhook ASSISTANT_ID BOT_USERNAME services body w = ack w.
Proof. intros H. unfold IndexJs.webhook. by rewrite H. Qed.

(** C6, as the code has it. Outside private chats: a text without the
    mention is dropped, and the handler does nothing but acknowledge; a text
    with the mention is passed on with the mention cut out and the white
    space at the two ends of what is left removed, so that what is passed on
    neither starts nor ends with white space. White space that stood next
    to a mention in the middle of the text is part of [pre] and [post] and
    stays. With the user name [BotName], the text ["@BotName hello"] is
    passed on as ["hello"]. *)
Theorem gate_group_mention msg raw :
  (forall c, last BOT_USERNAME = Some c -> is_ws c = false) ->
  chat_type msg <> lit "private" -> text msg = Some raw ->
  (~ occurs (mention BOT_USERNAME) raw ->
     gate BOT_USERNAME (Some msg) = None
     /\ forall (JSON : JsonLib) PROMPT_VERSION ASSISTANT_ID services w,
          Versioned.webhook PROMPT_VERSION ASSISTANT_ID BOT_USERNAME services
            (Some msg) w = ack w)
  /\ (occurs (mention BOT_USERNAME) raw ->
      exists pre post fwd,
        trim raw = pre ++ mention BOT_USERNAME ++ post
        /\ fwd = trim (pre ++ post)
        /\ gate BOT_USERNAME (Some msg) = Some (msg, fwd)
        /\ (forall c, head fwd = Some c -> is_ws c = false)
        /\ (forall c, last fwd = Some c -> is_ws c = false))
  /\ (BOT_USERNAME = lit "BotName" -> raw = lit "@BotName hello" ->
      gate BOT_USERNAME (Some msg) = Some (msg, lit "hello")).
Proof.
  intros Hlast Htype Htext. rewrite (gate_group _ _ Htype Htext).
  split; [|split].
  - intros Hno.
    assert (includes (mention BOT_USERNAME) (trim raw) = false) as Hinc.
    { apply includes_false. by rewrite mention_occurs_trim. }
    assert (gate BOT_USERNAME (Some msg) = None) as Hgate
      by (by rewrite (gate_group _ _ Htype Htext), Hinc).
    rewrite Hinc. split; [done|]. intros. by apply webhook_skip.
  - intros Hocc. apply mention_occurs_trim in Hocc; [|done].
    destruct (replace_first _ [] _ Hocc) as (pre & post & Hsplit & Hrep & _).
    exists pre, post, (trim (pre ++ post)). split; [done|]. split; [done|].
    apply includes_true in Hocc. rewrite Hocc, Hrep.
    split; [done|]. split; intros c; [apply trim_head | apply trim_last].
  - by intros -> ->.
Qed.

(** C10. Outside private chats the mention is looked for as a substring:
    the update is passed on exactly when [`@${BOT_USERNAME}`] occurs
    somewhere in the text, also inside a longer word. What is cut out is the
    leftmost occurrence only; the text before and after it is kept, later
    occurrences included. *)
Theorem gate_group_substring_first msg raw :
  (forall c, last BOT_USERNAME = Some c -> is_ws c = false) ->
  chat_type msg <> lit "private" -> text msg = Some raw ->
  (is_Some (gate BOT_USERNAME (Some msg)) <-> occurs (mention BOT_USERNAME) raw)
  /\ (forall pre post, raw = pre ++ mention BOT_USERNAME ++ post ->
                       is_Some (gate BOT_USERNAME (Some msg)))
  /\ (forall m fwd, gate BOT_USERNAME (Some msg) = Some (m, fwd) ->
       exists pre post,
         trim raw = pre ++ mention BOT_USERNAME ++ post
         /\ (forall pre' post',
               trim raw = pre' ++ mention BOT_USERNAME ++ post' ->
               (length pre <= length pre')%nat)
         /\ fwd = trim (pre ++ post)).
Proof.
  intros Hlast Htype Htext.
  assert (is_Some (gate BOT_USERNAME (Some msg))
          <-> occurs (mention BOT_USERNAME) raw) as Hiff.
  { rewrite (gate_group _ _ Htype Htext), <- (mention_occurs_trim _ Hlast).
    rewrite <- includes_true.
    destruct (includes _ (trim raw)).
    - split; [done | by eexists].
    - split; [intros [? [=]] | done]. }
  split; [done|]. split.
  - intros pre post ->. apply Hiff. by exists pre, post.
  - intros m fwd Hgate. rewrite (gate_group _ _ Htype Htext) in Hgate.
    destruct (includes _ (trim raw)) eqn:Hinc; [|done].
    injection Hgate as _ <-. apply includes_true in Hinc.
    destruct (replace_first _ [] _ Hinc) as (pre & post & Hsplit & Hrep & Hmin).
    exists pre, post. by rewrite Hrep.
Qed.

End Gate.

(** ** Loading the session file *)

Section Load.
Context `{JSON : JsonLib}.

(** C7. [threads] starts as the empty object when the file is missing and
    when its content does not parse; the SyntaxError is caught, so the
    result is a value in both cases. In part_000 the file is unlinked first,
    so [threads] always starts empty there. *)
Theorem load_missing_or_malformed :
  load None = JObj ∅
  /\ (forall content, JSON_parse content = None ->
                      load (Some content) = JObj ∅)
  /\ (forall file, Versioned.startup file = JObj ∅)
  /\ (forall file, IndexJs.startup file = load file).
Proof.
  split; [done|]. split; [|split].
  - intros content H. unfold load. by rewrite H.
  - by intros [content|].
  - done.
Qed.

End Load.

(** ** Evaluating the two modules *)

Section ModuleEvaluation.
Import Toplevel.

(** C9, at the failing input. With every required variable set, the
    evaluation of src/index.js raises a ReferenceError for [text] at line
    75, whatever the file and the network do; [app.listen] at line 154 is
    not reached. *)
Theorem index_js_raises_at_line_75 (exists_ malformed fetch : bool) :
  exists st,
    evaluate index_js
      {| env_complete := true; file_exists := exists_;
         file_malformed := malformed; fetch_ok := fetch |}
    = Raised (ReferenceError 75 "text") st
    /\ listening st = false.
Proof.
  destruct exists_, malformed, fetch; eexists; split;
    vm_compute; reflexivity.
Qed.

(** src/index.js never starts the server. *)
Lemma index_js_never_listens h :
  listening (final (evaluate index_js h)) = false.
Proof. by destruct h as [[] [] [] []]. Qed.

(** src/unnamed/part_000 starts it whenever the configuration is complete
    and the webhook registration resolves. *)
Lemma part_000_listens h :
  env_complete h = true -> fetch_ok h = true ->
  exists st, evaluate part_000 h = Normal st /\ listening st = true.
Proof.
  destruct h as [e [] [] f]; simpl; intros -> ->; eexists; split;
    vm_compute; reflexivity.
Qed.

(** Reading a malformed file is not what stops src/index.js: the
    statement of lines 47-53 completes normally in every state that has the
    names it uses. *)
Lemma index_js_load_does_not_raise h :
  exists st,
    exec_all (take 14 index_js)
      {| scope := hoisted index_js ++ globals;
         world := {| env_complete := true; file_exists := file_exists h;
                     file_malformed := file_malformed h;
                     fetch_ok := fetch_ok h |};
         listening := false |}
    = Normal st.
Proof. destruct h as [e [] [] f]; eexists; vm_compute; reflexivity. Qed.

End ModuleEvaluation.

(** ** src/index.js side by side *)

Section IndexJsFacts.
Context `{JSON : JsonLib}.
Variable ASSISTANT_ID : jsstring.
Variable services : Services.

(** The resolver of index.js knows no version: whatever truthy value is
    stored under the key is handed back, and nothing else happens. *)
Lemma index_js_reuses_any_stored_value chatId userId w existing :
  threads w !! getThreadKey chatId userId = Some existing ->
  truthy existing = true ->
  IndexJs.getOrCreateThread services chatId userId w = (Ok existing, w).
Proof.
  intros Hk Ht. unfold IndexJs.getOrCreateThread, mbind, M_bind, read.
  rewrite Hk. simpl. by rewrite Ht.
Qed.

(** On a miss it stores the bare handle. *)
Lemma index_js_stores_bare_handle chatId userId w id :
  threads w !! getThreadKey chatId userId = None ->
  threads_create services (length (requests w)) = Some id ->
  exists w',
    IndexJs.getOrCreateThread services chatId userId w = (Ok (JStr id), w')
    /\ threads w' !! getThreadKey chatId userId = Some (JStr id)
    /\ writes w' = S (writes w).
Proof.
  intros Hk Hid. unfold IndexJs.getOrCreateThread, mbind, M_bind, read.
  rewrite Hk. simpl. unfold await. rewrite Hid. eexists. split; [done|].
  split; [apply lookup_insert_eq | done].
Qed.

(** Its driver fails on a run that did not complete and falls back on a
    fixed string the same way; only the two strings differ. *)
Lemma index_js_runAssistant chatId userId userText w tid w1 status :
  IndexJs.getOrCreateThread services chatId userId w = (Ok tid, w1) ->
  messages_create services (length (requests w1)) = true ->
  runs_createAndPoll services (S (length (requests w1))) = Some status ->
  let w2 := log_request (RunsCreateAndPoll tid ASSISTANT_ID)
              (log_request (MessagesCreate tid (lit "user") userText) w1) in
  IndexJs.runAssistant ASSISTANT_ID services chatId userId userText w
  = if negb (bool_decide (status = lit "completed"))
    then (Throw (Error (lit "Assistant run failed with status: " ++ status)),
          w2)
    else
      match messages_list services (S (S (length (requests w1)))) with
      | Some data =>
          (Ok (or_else (text_value (find is_assistant data))
                       (JStr (lit "No response generated."))),
           log_request (MessagesList tid 5) w2)
      | None => (Throw (ApiError (MessagesList tid 5)),
                 log_request (MessagesList tid 5) w2)
      end.
Proof.
  intros Hres Happend Hrun w2. unfold IndexJs.runAssistant.
  run_driver Hres Happend Hrun.
Qed.

End IndexJsFacts.

(** ** Concrete runs *)

Section Runs.
Import Demo.

#[local] Abbreviation PV := Versioned.PROMPT_VERSION.
#[local] Abbreviation failing := (services (lit "failed") []).
#[local] Abbreviation completing := (services (lit "completed")).

Lemma demo_services_issue_handles status data :
  issues_handles (services status data).
Proof. intros n id [= <-]. discriminate. Defined.

(** C1 on a store written by this version: the handle comes back and the
    world is untouched. *)
Lemma getOrCreateThread_version_check_witness :
  Versioned.getOrCreateThread (JSON := MiniJson.json) PV failing 7 (Some 42%Z)
    current_world
  = (Ok (JStr (lit "thread_abc")), current_world)
  /\ exists rec,
       threads current_world !! key = Some rec
       /\ get (lit "prompt_version") rec = JStr PV
       /\ Ok (JStr (lit "thread_abc")) = Ok (get (lit "thread_id") rec)
       /\ current_world = current_world.
Proof.
  split; [vm_compute; reflexivity|].
  exact (proj1 (getOrCreateThread_version_check (JSON := MiniJson.json)
                  PV failing 7 (Some 42%Z) current_world
                  (Ok (JStr (lit "thread_abc"))) current_world eq_refl)
               eq_refl).
Defined.

(** C2 on a store written by index.js. *)
Lemma getOrCreateThread_legacy_string_witness :
  threads legacy_world !! getThreadKey 7 (Some 42%Z)
  = Some (JStr (lit "thread_old"))
  /\ exists r w',
       Versioned.getOrCreateThread (JSON := MiniJson.json) PV failing
         7 (Some 42%Z) legacy_world = (r, w')
       /\ requests w' = [ThreadsCreate]
       /\ r = Ok (JStr (lit "thread_0"))
       /\ threads w' !! key = Some (Versioned.record PV (lit "thread_0")).
Proof.
  split; [vm_compute; reflexivity|].
  destruct (getOrCreateThread_legacy_string (JSON := MiniJson.json)
              PV failing 7 (Some 42%Z) legacy_world (lit "thread_old") eq_refl)
    as (r & w' & Hrun & Hreq & Hr & Hk & _).
  exists r, w'. repeat split; assumption.
Defined.

(** A record written under version 1.1 is replaced under version 1.2. *)
Example getOrCreateThread_stale_record :
  exists w',
    Versioned.getOrCreateThread (JSON := MiniJson.json) PV failing
      7 (Some 42%Z) stale_world = (Ok (JStr (lit "thread_0")), w')
    /\ threads w' = {[ key := Versioned.record PV (lit "thread_0") ]}
    /\ writes w' = 1%nat.
Proof. eexists. vm_compute. repeat split; reflexivity. Qed.

(** C3 from the empty store: the first call creates [thread_0] and writes
    once, the second returns it and changes nothing. *)
Lemma getOrCreateThread_twice_witness :
  let w1 := Versioned.created (JSON := MiniJson.json) PV key (lit "thread_0")
              world0 in
  issues_handles failing
  /\ Versioned.getOrCreateThread (JSON := MiniJson.json) PV failing
       7 (Some 42%Z) world0 = (Ok (JStr (lit "thread_0")), w1)
  /\ Versioned.getOrCreateThread (JSON := MiniJson.json) PV failing
       7 (Some 42%Z) w1 = (Ok (JStr (lit "thread_0")), w1)
  /\ (writes w1 <= 1)%nat.
Proof.
  intros w1. split; [apply demo_services_issue_handles|].
  split; [vm_compute; reflexivity|].
  exact (getOrCreateThread_twice (JSON := MiniJson.json) PV failing
           7 (Some 42%Z) world0 (JStr (lit "thread_0")) w1
           (demo_services_issue_handles _ _) eq_refl).
Defined.

(** C4 with a run that ends as ["failed"]. *)
Lemma runAssistant_run_not_completed_witness :
  lit "failed" <> lit "completed"
  /\ exists w2,
       Versioned.runAssistant (JSON := MiniJson.json) PV ASSISTANT_ID failing
         7 (Some 42%Z) (lit "hello") world0
       = (Throw (Error (lit "Assistant run failed: failed")), w2)
       /\ history (JStr (lit "thread_0")) (requests w2)
          = [(lit "user", lit "hello")].
Proof.
  assert (lit "failed" <> lit "completed") as Hne by discriminate.
  split; [exact Hne|].
  destruct (runAssistant_run_not_completed (JSON := MiniJson.json)
              PV ASSISTANT_ID failing 7 (Some 42%Z) (lit "hello") world0
              (JStr (lit "thread_0"))
              (Versioned.created (JSON := MiniJson.json) PV key
                 (lit "thread_0") world0)
              (lit "failed") eq_refl eq_refl eq_refl Hne)
    as (w2 & Hrun & _ & Hhist & _).
  exists w2. split; [exact Hrun | exact Hhist].
Defined.

(** C8 with a window that holds only the user's turn, and with one whose
    assistant turn carries an image. *)
Lemma runAssistant_fallback_witness :
  find is_assistant [turn (lit "user") (lit "hello")] = None
  /\ exists w2,
       Versioned.runAssistant (JSON := MiniJson.json) PV ASSISTANT_ID
         (completing [turn (lit "user") (lit "hello")])
         7 (Some 42%Z) (lit "hello") world0
       = (Ok (JStr (lit "No response.")), w2).
Proof.
  split; [vm_compute; reflexivity|].
  exact (runAssistant_fallback (JSON := MiniJson.json) PV ASSISTANT_ID
           (completing [turn (lit "user") (lit "hello")])
           7 (Some 42%Z) (lit "hello") world0 (JStr (lit "thread_0"))
           (Versioned.created (JSON := MiniJson.json) PV key
              (lit "thread_0") world0)
           [turn (lit "user") (lit "hello")]
           eq_refl eq_refl eq_refl eq_refl (or_introl eq_refl)).
Defined.

Example runAssistant_fallback_image :
  exists w2,
    Versioned.runAssistant (JSON := MiniJson.json) PV ASSISTANT_ID
      (completing [image_turn; turn (lit "assistant") (lit "earlier")])
      7 (Some 42%Z) (lit "hello") world0
    = (Ok (JStr (lit "No response.")), w2).
Proof. eexists. vm_compute. reflexivity. Qed.

Example runAssistant_reply :
  exists w2,
    Versioned.runAssistant (JSON := MiniJson.json) PV ASSISTANT_ID
      (completing [turn (lit "assistant") (lit "Hi!");
                   turn (lit "user") (lit "hello")])
      7 (Some 42%Z) (lit "hello") world0
    = (Ok (JStr (lit "Hi!")), w2).
Proof. eexists. vm_compute. reflexivity. Qed.

(** C5 as stated fails: a private text with white space around it is not
    passed on unchanged. *)
Lemma gate_private_not_verbatim :
  ~ (forall BOT_USERNAME msg raw,
       chat_type msg = lit "private" -> text msg = Some raw -> raw <> [] ->
       gate BOT_USERNAME (Some msg) = Some (msg, raw)).
Proof.
  intros H.
  specialize (H default_BOT_USERNAME (msg (lit "private") (lit " hi "))
                (lit " hi ") eq_refl eq_refl).
  vm_compute in H. specialize (H ltac:(discriminate)). discriminate H.
Qed.

(** C5 as amended, on the same message. *)
Lemma gate_private_trims_witness :
  chat_type (msg (lit "private") (lit " hi ")) = lit "private"
  /\ gate default_BOT_USERNAME (Some (msg (lit "private") (lit " hi ")))
     = Some (msg (lit "private") (lit " hi "), lit "hi").
Proof.
  split; [reflexivity|].
  exact (proj1 (gate_private_trims default_BOT_USERNAME
                  (msg (lit "private") (lit " hi ")) (lit " hi ")
                  eq_refl eq_refl ltac:(discriminate))).
Defined.

Lemma BotName_last c : last (lit "BotName") = Some c -> is_ws c = false.
Proof. intros [= <-]. reflexivity. Defined.

Lemma default_BOT_USERNAME_last c :
  last default_BOT_USERNAME = Some c -> is_ws c = false.
Proof. intros [= <-]. reflexivity. Defined.

(** C6 as stated fails: with the mention in the middle of the text, the
    white space around it is not stripped. ["hi @BotName there"] is passed
    on as ["hi  there"], not as ["hithere"]. *)
Lemma gate_group_inner_space_not_stripped :
  ~ (forall BOT_USERNAME msg raw,
       (forall c, last BOT_USERNAME = Some c -> is_ws c = false) ->
       chat_type msg <> lit "private" -> text msg = Some raw ->
       occurs (mention BOT_USERNAME) raw ->
       gate BOT_USERNAME (Some msg)
       = Some (msg, strip_mention_and_surrounding_space
                      (mention BOT_USERNAME) (trim raw))).
Proof.
  intros H.
  specialize (H (lit "BotName") (msg (lit "group") (lit "hi @BotName there"))
                (lit "hi @BotName there") BotName_last
                ltac:(discriminate) eq_refl).
  assert (occurs (mention (lit "BotName")) (lit "hi @BotName there")) as Hocc
    by (by exists (lit "hi "), (lit " there")).
  specialize (H Hocc). vm_compute in H. discriminate H.
Qed.

(** On the example of the specification the two ways of stripping agree. *)
Example strip_mention_and_surrounding_space_hello :
  strip_mention_and_surrounding_space (mention (lit "BotName"))
    (lit "@BotName hello") = lit "hello"
  /\ strip_mention_and_surrounding_space (mention (lit "BotName"))
       (lit "hi @BotName there") = lit "hithere".
Proof. vm_compute. split; reflexivity. Qed.

(** C6 on the example of the specification. *)
Lemma gate_group_mention_witness :
  chat_type (msg (lit "group") (lit "@BotName hello")) <> lit "private"
  /\ gate (lit "BotName") (Some (msg (lit "group") (lit "@BotName hello")))
     = Some (msg (lit "group") (lit "@BotName hello"), lit "hello").
Proof.
  assert (chat_type (msg (lit "group") (lit "@BotName hello"))
          <> lit "private") as Hne by discriminate.
  split; [exact Hne|].
  exact (proj2 (proj2 (gate_group_mention (lit "BotName")
                         (msg (lit "group") (lit "@BotName hello"))
                         (lit "@BotName hello") BotName_last Hne eq_refl))
               eq_refl eq_refl).
Defined.

(** C10 on a text that holds the mention inside a longer word and once
    more later. *)
Lemma gate_group_substring_first_witness :
  let raw := lit "hey @SiharaPrakBotX and @SiharaPrakBot" in
  chat_type (msg (lit "supergroup") raw) <> lit "private"
  /\ is_Some (gate default_BOT_USERNAME (Some (msg (lit "supergroup") raw))).
Proof.
  intros raw.
  assert (chat_type (msg (lit "supergroup") raw) <> lit "private")
    as Hne by discriminate.
  split; [exact Hne|].
  exact (proj1 (proj2 (gate_group_substring_first default_BOT_USERNAME
                         (msg (lit "supergroup") raw) raw
                         default_BOT_USERNAME_last Hne eq_refl))
               (lit "hey ") (lit "X and @SiharaPrakBot") eq_refl).
Defined.

Example gate_group_keeps_later_mention :
  let raw := lit "hey @SiharaPrakBotX and @SiharaPrakBot" in
  gate default_BOT_USERNAME (Some (msg (lit "supergroup") raw))
  = Some (msg (lit "supergroup") raw, lit "hey X and @SiharaPrakBot").
Proof. vm_compute. reflexivity. Qed.

(** White space next to a mention in the middle of the text stays. *)
Example gate_group_inner_space :
  gate (lit "BotName") (Some (msg (lit "group") (lit "hi @BotName there")))
  = Some (msg (lit "group") (lit "hi @BotName there"), lit "hi  there").
Proof. vm_compute. reflexivity. Qed.

(** A private message through the whole handler: the session is created,
    the trimmed text is appended, the run is made, the turns are listed and
    the reply is sent as an answer to message 11. *)
Example webhook_private_run :
  requests
    (Versioned.webhook (JSON := MiniJson.json) PV ASSISTANT_ID
       default_BOT_USERNAME
       (completing [turn (lit "assistant") (lit "Hi!");
                    turn (lit "user") (lit "hi")])
       (Some (msg (lit "private") (lit " hi "))) world0)
  = [ThreadsCreate;
     MessagesCreate (JStr (lit "thread_0")) (lit "user") (lit "hi");
     RunsCreateAndPoll (JStr (lit "thread_0")) ASSISTANT_ID;
     MessagesList (JStr (lit "thread_0")) 5;
     SendMessage 7 (JStr (lit "Hi!")) 11].
Proof. vm_compute. reflexivity. Qed.

(** The same message when the run fails: the user turn was appended, the
    error is logged, nothing is sent. *)
Example webhook_private_failed_run :
  let w := Versioned.webhook (JSON := MiniJson.json) PV ASSISTANT_ID
             default_BOT_USERNAME failing
             (Some (msg (lit "private") (lit " hi "))) world0 in
  requests w
  = [ThreadsCreate;
     MessagesCreate (JStr (lit "thread_0")) (lit "user") (lit "hi");
     RunsCreateAndPoll (JStr (lit "thread_0")) ASSISTANT_ID]
  /\ errlog w = [Error (lit "Assistant run failed: failed")]
  /\ acks w = 1%nat.
Proof. vm_compute. repeat split; reflexivity. Qed.

(** A group message that does not mention the bot. *)
Example webhook_group_unaddressed :
  Versioned.webhook (JSON := MiniJson.json) PV ASSISTANT_ID
    default_BOT_USERNAME failing
    (Some (msg (lit "group") (lit "hello everyone"))) world0
  = ack world0.
Proof. vm_compute. reflexivity. Qed.

(** C7 on a truncated file. *)
Lemma load_missing_or_malformed_witness :
  JSON_parse (JsonLib := MiniJson.json) (lit "{ oops") = None
  /\ load (JSON := MiniJson.json) (Some (lit "{ oops")) = JObj ∅.
Proof.
  split; [vm_compute; reflexivity|].
  exact (proj1 (proj2 (load_missing_or_malformed (JSON := MiniJson.json)))
               (lit "{ oops") eq_refl).
Defined.

(** What is written is read back. *)
Example load_after_saveThreads :
  let w := Versioned.created (JSON := MiniJson.json) PV key (lit "thread_0")
             world0 in
  load (JSON := MiniJson.json) (file w) = JObj (threads w).
Proof. vm_compute. reflexivity. Qed.

End Runs.

(** ** Session keys *)

Section SessionKeys.

Lemma lit_inj s1 s2 : lit s1 = lit s2 -> s1 = s2.
Proof.
  unfold lit. intros H.
  rewrite <- (string_of_list_ascii_of_string s1),
          <- (string_of_list_ascii_of_string s2).
  f_equal. revert H.
  generalize (list_ascii_of_string s1) (list_ascii_of_string s2).
  induction l as [|a l IH]; intros [|b l']; simpl; try done.
  intros [= Hab Hl]. f_equal; [|by apply IH].
  by rewrite <- (ascii_N_embedding a), <- (ascii_N_embedding b), Hab.
Qed.

Lemma uint_numeral d :
  forallb is_numeral (lit (NilEmpty.string_of_uint d)) = true.
Proof. induction d; simpl; try done; exact IHd. Qed.

Lemma of_Z_numeral z : forallb is_numeral (of_Z z) = true.
Proof.
  unfold of_Z. destruct (Z.to_int z) as [d|d]; simpl.
  - destruct d; try done; apply (uint_numeral (_ d)).
  - destruct d; try done; apply (uint_numeral (_ d)).
Qed.

Lemma of_Z_nonempty z : of_Z z <> [].
Proof.
  unfold of_Z. destruct (Z.to_int z) as [d|d]; [|done]. by destruct d.
Qed.

Lemma to_int_not_nil z :
  Z.to_int z <> Decimal.Pos Decimal.Nil /\ Z.to_int z <> Decimal.Neg Decimal.Nil.
Proof.
  split; intros H; pose proof (f_equal Z.of_int H) as H';
    rewrite DecimalZ.of_to in H'; simpl in H'; subst z; discriminate H.
Qed.

Lemma of_Z_inj z1 z2 : of_Z z1 = of_Z z2 -> z1 = z2.
Proof.
  unfold of_Z. intros H. apply lit_inj in H.
  apply (f_equal NilZero.int_of_string) in H.
  destruct (to_int_not_nil z1), (to_int_not_nil z2).
  rewrite !NilZero.isi in H by done. injection H as H.
  by rewrite <- (DecimalZ.of_to z1), <- (DecimalZ.of_to z2), H.
Qed.

(** Two strings that agree after a first colon agree before it. *)
Lemma colon_split (a a' b b' : jsstring) :
  forallb is_numeral a = true -> forallb is_numeral a' = true ->
  a ++ 0x3A :: b = a' ++ 0x3A :: b' -> a = a' /\ b = b'.
Proof.
  revert a'. induction a as [|x a IH]; intros [|y a']; simpl.
  - by intros _ _ [= ->].
  - intros _ Hy [= <- _]. done.
  - intros Hx _ [= -> _]. done.
  - rewrite !andb_true_iff. intros [_ Ha] [_ Ha'] [= -> H].
    destruct (IH _ Ha Ha' H) as [-> ->]. done.
Qed.

(** X1. [getThreadKey] keeps sessions apart: two pairs of a chat and a
    sender (a number or [undefined]) that differ get different keys. *)
Theorem getThreadKey_injective chatId userId chatId' userId' :
  (chatId, userId) <> (chatId', userId') ->
  getThreadKey chatId userId <> getThreadKey chatId' userId'.
Proof.
  intros Hne Hkey. apply Hne. clear Hne. unfold getThreadKey in Hkey.
  change (lit ":" ++ ?x) with (0x3A :: x) in Hkey.
  apply colon_split in Hkey as [Hc Hu]; [|apply of_Z_numeral..].
  apply of_Z_inj in Hc as ->. f_equal.
  destruct userId as [u|], userId' as [u'|]; try done.
  - by apply of_Z_inj in Hu as ->.
  - pose proof (of_Z_numeral u) as H. rewrite Hu in H. discriminate.
  - pose proof (of_Z_numeral u') as H. rewrite <- Hu in H. discriminate.
Qed.

End SessionKeys.

(** ** More on the two resolvers *)

Section Resolvers.
Context `{JSON : JsonLib}.
Variable services : Services.
Implicit Types (chatId : Z) (userId : option Z) (w : World) (v : jsstring).

Lemma record_thread_id v id :
  get (lit "thread_id") (Versioned.record v id) = JStr id.
Proof. unfold Versioned.record, get. by rewrite lookup_insert_eq. Qed.

Lemma record_prompt_version v id :
  get (lit "prompt_version") (Versioned.record v id) = JStr v.
Proof.
  unfold Versioned.record, get.
  rewrite lookup_insert_ne by done. by rewrite lookup_insert_eq.
Qed.

(** The two ways [getOrCreateThread] of part_000 can go. *)
Lemma resolve_cases v chatId userId w r w' :
  Versioned.getOrCreateThread v services chatId userId w = (r, w') ->
  (Versioned.reusable v
     (default JUndefined (threads w !! getThreadKey chatId userId)) = true
   /\ r = Ok (get (lit "thread_id")
               (default JUndefined (threads w !! getThreadKey chatId userId)))
   /\ w' = w)
  \/ (Versioned.reusable v
        (default JUndefined (threads w !! getThreadKey chatId userId)) = false
      /\ match threads_create services (length (requests w)) with
         | Some id =>
             r = Ok (JStr id)
             /\ w' = Versioned.created v (getThreadKey chatId userId) id w
         | None =>
             r = Throw (ApiError ThreadsCreate)
             /\ w' = log_request ThreadsCreate w
         end).
Proof.
  intros Hrun.
  destruct (Versioned.reusable v (default JUndefined
              (threads w !! getThreadKey chatId userId))) eqn:Hre.
  - rewrite (resolve_hit _ _ _ _ _ Hre) in Hrun. injection Hrun as <- <-.
    by left.
  - rewrite (resolve_miss _ _ _ _ _ Hre) in Hrun. right. split; [done|].
    by destruct (threads_create services _); injection Hrun as <- <-.
Qed.

(** After a successful call the key holds a record of version [v] with the
    handle that was returned. *)
Lemma resolve_Ok_record v chatId userId w h w' :
  Versioned.getOrCreateThread v services chatId userId w = (Ok h, w') ->
  exists rec, threads w' !! getThreadKey chatId userId = Some rec
    /\ get (lit "thread_id") rec = h
    /\ get (lit "prompt_version") rec = JStr v.
Proof.
  intros Hrun. apply resolve_cases in Hrun as [(Hre & [= ->] & ->) | [_ Hrun]].
  - destruct (threads w !! getThreadKey chatId userId) as [rec|]; [|done].
    exists rec. repeat split. by apply reusable_version in Hre.
  - destruct (threads_create services _) as [id|]; [|by destruct Hrun].
    destruct Hrun as [[= ->] ->]. exists (Versioned.record v id).
    split; [simpl; apply lookup_insert_eq|].
    split; [apply record_thread_id | apply record_prompt_version].
Qed.

(** X2. What [getOrCreateThread] of part_000 returns is what the store then
    holds for the key, in a record of the active version; the records of all
    other keys are as before. *)
Theorem getOrCreateThread_store_after v chatId userId w h w' :
  Versioned.getOrCreateThread v services chatId userId w = (Ok h, w') ->
  (exists rec, threads w' !! getThreadKey chatId userId = Some rec
     /\ get (lit "thread_id") rec = h
     /\ get (lit "prompt_version") rec = JStr v)
  /\ (forall k, k <> getThreadKey chatId userId ->
                threads w' !! k = threads w !! k).
Proof.
  intros Hrun. split; [by eapply resolve_Ok_record|].
  intros k Hk. apply resolve_cases in Hrun as [(_ & _ & ->) | [_ Hrun]];
    [done|].
  destruct (threads_create services _) as [id|]; destruct Hrun as [_ ->];
    [|done].
  simpl. by rewrite lookup_insert_ne.
Qed.

(** X3. A version bump invalidates lazily: a key resolved under [v1] and
    resolved again under another version [v2] always goes back to the
    service, and the answer replaces the record of the key and of no other
    key. *)
Theorem getOrCreateThread_version_bump v1 v2 chatId userId w h1 w1 :
  v1 <> v2 ->
  Versioned.getOrCreateThread v1 services chatId userId w = (Ok h1, w1) ->
  exists r w2,
    Versioned.getOrCreateThread v2 services chatId userId w1 = (r, w2)
    /\ requests w2 = requests w1 ++ [ThreadsCreate]
    /\ match threads_create services (length (requests w1)) with
       | Some id =>
           r = Ok (JStr id)
           /\ threads w2
              = <[getThreadKey chatId userId := Versioned.record v2 id]>
                  (threads w1)
           /\ writes w2 = S (writes w1)
       | None => r = Throw (ApiError ThreadsCreate) /\ threads w2 = threads w1
       end.
Proof.
  intros Hne Hrun. apply resolve_Ok_record in Hrun as (rec & Hk & _ & Hv).
  assert (Versioned.reusable v2 (default JUndefined
            (threads w1 !! getThreadKey chatId userId)) = false) as Hre.
  { rewrite Hk. simpl. unfold Versioned.reusable. rewrite Hv. simpl.
    rewrite bool_decide_eq_false_2 by done. apply andb_false_r. }
  rewrite (resolve_miss _ _ _ _ _ Hre).
  destruct (threads_create services _) as [id|]; eexists _, _;
    by repeat split.
Qed.

(** The two ways [getOrCreateThread] of index.js can go. *)
Lemma index_js_resolve_cases chatId userId w r w' :
  IndexJs.getOrCreateThread services chatId userId w = (r, w') ->
  (truthy (default JUndefined (threads w !! getThreadKey chatId userId)) = true
   /\ r = Ok (default JUndefined (threads w !! getThreadKey chatId userId))
   /\ w' = w)
  \/ (truthy (default JUndefined (threads w !! getThreadKey chatId userId))
      = false
      /\ match threads_create services (length (requests w)) with
         | Some id =>
             r = Ok (JStr id)
             /\ w' = write_file
                      (JSON_stringify (JObj
                         (<[getThreadKey chatId userId := JStr id]> (threads w))))
                      (set_threads
                         (<[getThreadKey chatId userId := JStr id]> (threads w))
                         (log_request ThreadsCreate w))
         | None =>
             r = Throw (ApiError ThreadsCreate)
             /\ w' = log_request ThreadsCreate w
         end).
Proof.
  unfold IndexJs.getOrCreateThread, mbind, M_bind, read.
  destruct (truthy _) eqn:Ht.
  - intros [= <- <-]. by left.
  - unfold await. intros Hrun. right. split; [done|].
    by destruct (threads_create services _); injection Hrun as <- <-.
Qed.

(** X4. [getOrCreateThread] of index.js called twice in a row returns the
    same value, and the second call changes nothing; the file is written at
    most once. *)
Theorem index_js_getOrCreateThread_twice chatId userId w h w1 :
  issues_handles services ->
  IndexJs.getOrCreateThread services chatId userId w = (Ok h, w1) ->
  IndexJs.getOrCreateThread services chatId userId w1 = (Ok h, w1)
  /\ (writes w1 <= S (writes w))%nat.
Proof.
  intros Hup Hrun.
  apply index_js_resolve_cases in Hrun as [(Ht & [= ->] & ->) | [_ Hrun]].
  - split; [|lia].
    destruct (threads w !! getThreadKey chatId userId) as [x|] eqn:Hk;
      [|done].
    by apply index_js_reuses_any_stored_value.
  - destruct (threads_create services _) as [id|] eqn:Hid;
      [|by destruct Hrun].
    destruct Hrun as [[= ->] ->]. split; [|simpl; lia].
    apply index_js_reuses_any_stored_value.
    + simpl. apply lookup_insert_eq.
    + apply Hup in Hid. by destruct id.
Qed.

End Resolvers.

(** ** The order of requests *)

Section Protocol.
Context `{JSON : JsonLib}.
Variables PROMPT_VERSION ASSISTANT_ID : jsstring.
Variable services : Services.
Implicit Types (chatId : Z) (userId : option Z) (w : World).

#[local] Abbreviation resolve :=
  (Versioned.getOrCreateThread PROMPT_VERSION services).
#[local] Abbreviation converse :=
  (Versioned.runAssistant PROMPT_VERSION ASSISTANT_ID services).

(** What [getOrCreateThread] leaves alone, and how store and file move
    together. *)
Lemma resolve_frame chatId userId w r w1 :
  resolve chatId userId w = (r, w1) ->
  acks w1 = acks w /\ errlog w1 = errlog w
  /\ (requests w1 = requests w \/ requests w1 = requests w ++ [ThreadsCreate])
  /\ ((threads w1 = threads w /\ file w1 = file w /\ writes w1 = writes w)
      \/ (writes w1 = S (writes w) /\ synced w1))
  /\ (forall k, k <> getThreadKey chatId userId ->
                threads w1 !! k = threads w !! k).
Proof.
  intros Hrun. apply resolve_cases in Hrun as [(_ & _ & ->) | [_ Hrun]].
  - repeat split; auto.
  - destruct (threads_create services _) as [id|]; destruct Hrun as [_ ->].
    + split; [done|]. split; [done|]. split; [by right|].
      split; [right; by split|].
      intros k Hk. simpl. by rewrite lookup_insert_ne.
    + split; [done|]. split; [done|]. split; [by right|].
      split; [by left|]. done.
Qed.

(** [runAssistant] is [getOrCreateThread] followed by a prefix of the three
    requests on the session; only the log of requests changes after the
    session is resolved, and a reply needs all three requests and a run that
    completed. *)
Lemma runAssistant_split chatId userId userText w r w' :
  converse chatId userId userText w = (r, w') ->
  exists r1 w1,
    resolve chatId userId w = (r1, w1)
    /\ only_requests w1 w'
    /\ match r1 with
       | Throw e => r = Throw e /\ w' = w1
       | Ok tid =>
           exists steps,
             requests w' = requests w1 ++ steps
             /\ steps `prefix_of` conversation tid ASSISTANT_ID userText
             /\ steps <> []
             /\ forall reply, r = Ok reply ->
                   steps = conversation tid ASSISTANT_ID userText
                   /\ runs_createAndPoll services (S (length (requests w1)))
                      = Some (lit "completed")
       end.
Proof.
  unfold Versioned.runAssistant. unfold mbind, M_bind at 1.
  destruct (resolve chatId userId w) as [[tid|e] w1] eqn:Hres.
  - unfold M_bind at 1, await at 1, succeeded.
    destruct (messages_create services (length (requests w1))) eqn:Happend.
    + unfold M_bind at 1, await at 1. simpl requests.
      rewrite length_app, Nat.add_1_r.
      destruct (runs_createAndPoll services _) as [status|] eqn:Hrun;
        cbv beta iota.
      * destruct (bool_decide (status = lit "completed")) eqn:Hst;
          cbn [negb]; cbv beta iota.
        -- apply bool_decide_eq_true in Hst as ->.
           unfold M_bind, await, mret, M_ret. simpl requests.
           rewrite !length_app, !Nat.add_1_r. simpl Nat.add.
           destruct (messages_list services _) as [data|];
             intros [= <- <-]; eexists _, _; (split; [done|]);
             (split; [by repeat split|]);
             exists (conversation tid ASSISTANT_ID userText);
             simpl; rewrite <- !app_assoc; by repeat split.
        -- intros [= <- <-]. eexists _, _. split; [done|].
           split; [by repeat split|].
           exists [MessagesCreate tid (lit "user") userText;
                   RunsCreateAndPoll tid ASSISTANT_ID].
           simpl. rewrite <- !app_assoc. repeat split; [|done..].
           by eexists [_].
      * intros [= <- <-]. eexists _, _. split; [done|].
        split; [by repeat split|].
        exists [MessagesCreate tid (lit "user") userText;
                RunsCreateAndPoll tid ASSISTANT_ID].
        simpl. rewrite <- !app_assoc. repeat split; [|done..].
        by eexists [_].
    + intros [= <- <-]. eexists _, _. split; [done|].
      split; [by repeat split|].
      exists [MessagesCreate tid (lit "user") userText].
      simpl. repeat split; [|done..]. by eexists [_; _].
  - intros [= <- <-]. eexists _, _. split; [done|]. by repeat split.
Qed.

(** X5. The requests of one [runAssistant] call, in order: at most one
    session creation, then a prefix of append, run and list on one session.
    A reply is returned only after all three, on a run that ended as
    ["completed"], and the session they went to is the one the store holds
    for the key. *)
Theorem runAssistant_protocol chatId userId userText w r w' :
  converse chatId userId userText w = (r, w') ->
  exists pre tid steps,
    requests w' = requests w ++ pre ++ steps
    /\ (pre = [] \/ pre = [ThreadsCreate])
    /\ steps `prefix_of` conversation tid ASSISTANT_ID userText
    /\ forall reply, r = Ok reply ->
          steps = conversation tid ASSISTANT_ID userText
          /\ runs_createAndPoll services (S (length (requests w ++ pre)))
             = Some (lit "completed")
          /\ exists rec,
               threads w' !! getThreadKey chatId userId = Some rec
               /\ get (lit "thread_id") rec = tid.
Proof.
  intros Hrun.
  apply runAssistant_split in Hrun as (r1 & w1 & Hres & Honly & Hrest).
  pose proof (resolve_frame _ _ _ _ _ Hres) as (_ & _ & Hreq & _ & _).
  assert (exists pre, requests w1 = requests w ++ pre
                      /\ (pre = [] \/ pre = [ThreadsCreate]))
    as (pre & Hpre & Hshape).
  { destruct Hreq as [-> | ->]; [exists [] | exists [ThreadsCreate]];
      rewrite ?app_nil_r; auto. }
  destruct r1 as [tid|e].
  - destruct Hrest as (steps & Hsteps & Hprefix & _ & Hok).
    exists pre, tid, steps. rewrite Hsteps, Hpre, <- app_assoc.
    split; [done|]. split; [done|]. split; [done|].
    intros reply Hr. destruct (Hok _ Hr) as [-> Hcompleted].
    rewrite <- Hpre. split; [done|]. split; [done|].
    apply resolve_Ok_record in Hres as (rec & Hk & Htid & _).
    exists rec. destruct Honly as (-> & _). done.
  - destruct Hrest as [-> ->]. exists pre, JUndefined, [].
    rewrite Hpre, app_nil_r. split; [done|]. split; [done|].
    split; [apply prefix_nil | done].
Qed.

Lemma find_first_assistant skipped m rest :
  forallb (fun x => negb (is_assistant x)) skipped = true ->
  is_assistant m = true ->
  find is_assistant (skipped ++ m :: rest) = Some m.
Proof.
  intros Hskip Hm. induction skipped as [|x skipped IH]; simpl in *.
  - by rewrite Hm.
  - apply andb_true_iff in Hskip as [Hx Hskip].
    apply negb_true_iff in Hx. rewrite Hx. by apply IH.
Qed.

(** X16. After a completed run the reply is the text of the first content
    part of the first turn by the assistant in the listed window: turns
    listed before it that are not by the assistant are skipped, and its
    further parts and all later turns are not looked at. *)
Theorem runAssistant_reply_is_first_assistant_text
    chatId userId userText w tid w1 skipped m rest part parts t v :
  resolve chatId userId w = (Ok tid, w1) ->
  messages_create services (length (requests w1)) = true ->
  runs_createAndPoll services (S (length (requests w1)))
  = Some (lit "completed") ->
  messages_list services (S (S (length (requests w1))))
  = Some (skipped ++ m :: rest) ->
  forallb (fun x => negb (is_assistant x)) skipped = true ->
  m !! lit "role" = Some (JStr (lit "assistant")) ->
  m !! lit "content" = Some (JArr (JObj part :: parts)) ->
  part !! lit "text" = Some (JObj t) ->
  t !! lit "value" = Some (JStr v) ->
  v <> [] ->
  exists w2,
    converse chatId userId userText w = (Ok (JStr v), w2)
    /\ requests w2
       = requests w1 ++ conversation tid ASSISTANT_ID userText.
Proof.
  intros Hres Happend Hrun Hlist Hskip Hrole Hcontent Htext Hvalue Hv.
  rewrite (runAssistant_until_run _ _ _ _ _ userText _ _ _ _
             Hres Happend Hrun).
  rewrite bool_decide_eq_true_2 by done. simpl negb. cbv iota.
  rewrite Hlist. eexists. split.
  - f_equal. f_equal. rewrite find_first_assistant; [|done|].
    + unfold text_value, or_else. rewrite Hcontent. simpl.
      unfold get at 2. rewrite Htext. simpl. unfold get. rewrite Hvalue.
      simpl. by destruct v.
    + unfold is_assistant. rewrite Hrole. by apply is_str_true.
  - simpl. by rewrite <- !app_assoc.
Qed.

Lemma prefix_conversation_no_send steps tid userText :
  steps `prefix_of` conversation tid ASSISTANT_ID userText ->
  filter is_send steps = [].
Proof.
  intros [k Hk]. unfold conversation in Hk.
  destruct steps as [|s1 [|s2 [|s3 [|s4 steps]]]]; simpl in Hk;
    simplify_eq; reflexivity.
Qed.

(** [runAssistant] sends nothing to the transport. *)
Lemma runAssistant_no_send chatId userId userText w r w' :
  converse chatId userId userText w = (r, w') ->
  filter is_send (requests w') = filter is_send (requests w).
Proof.
  intros Hrun.
  apply runAssistant_split in Hrun as (r1 & w1 & Hres & _ & Hrest).
  pose proof (resolve_frame _ _ _ _ _ Hres) as (_ & _ & Hreq & _ & _).
  assert (filter is_send (requests w1) = filter is_send (requests w)) as <-.
  { destruct Hreq as [-> | ->]; [done|]. rewrite filter_app. simpl.
    by rewrite app_nil_r. }
  destruct r1 as [tid|e].
  - destruct Hrest as (steps & -> & Hprefix & _).
    rewrite filter_app, (prefix_conversation_no_send _ _ _ Hprefix).
    by rewrite app_nil_r.
  - by destruct Hrest as [_ ->].
Qed.

(** What [runAssistant] leaves alone. *)
Lemma runAssistant_frame chatId userId userText w r w' :
  converse chatId userId userText w = (r, w') ->
  acks w' = acks w /\ errlog w' = errlog w
  /\ ((threads w' = threads w /\ file w' = file w /\ writes w' = writes w)
      \/ (writes w' = S (writes w) /\ synced w'))
  /\ (forall k, k <> getThreadKey chatId userId ->
                threads w' !! k = threads w !! k).
Proof.
  intros Hrun.
  apply runAssistant_split in Hrun as (r1 & w1 & Hres & Honly & _).
  destruct Honly as (Ht & Hf & Hw & Ha & He).
  pose proof (resolve_frame _ _ _ _ _ Hres) as (Ha1 & He1 & _ & Hsave & Hk).
  unfold synced in *. rewrite Ht, Hf, Hw, Ha, He. auto.
Qed.

End Protocol.

(** ** The handler as a whole *)

Section Handler.
Context `{JSON : JsonLib}.
Variables PROMPT_VERSION ASSISTANT_ID BOT_USERNAME : jsstring.
Variable services : Services.
Implicit Types (body : option message) (w : World).

#[local] Abbreviation converse :=
  (Versioned.runAssistant PROMPT_VERSION ASSISTANT_ID services).
#[local] Abbreviation handle :=
  (Versioned.webhook PROMPT_VERSION ASSISTANT_ID BOT_USERNAME services).

Lemma gate_Some_body body msg t :
  gate BOT_USERNAME body = Some (msg, t) -> body = Some msg.
Proof.
  unfold gate. destruct body as [m|]; [|done].
  destruct (text m) as [[|c raw]|]; try done.
  by destruct (_ && _); intros [= -> _].
Qed.

(** The handler taken apart: the acknowledgement, the gate, [runAssistant]
    on the acknowledged world, then the reply or the log entry. *)
Lemma webhook_split body w :
  (gate BOT_USERNAME body = None /\ handle body w = ack w)
  \/ exists msg text r w2,
       body = Some msg
       /\ gate BOT_USERNAME body = Some (msg, text)
       /\ converse (chat_id msg) (from_id msg) text (ack w) = (r, w2)
       /\ match r with
          | Ok reply =>
              let send := SendMessage (chat_id msg) reply (message_id msg) in
              if sendMessage services (length (requests w2))
              then handle body w = log_request send w2
              else handle body w
                   = console_error (ApiError send) (log_request send w2)
          | Throw e => handle body w = console_error e w2
          end.
Proof.
  unfold Versioned.webhook.
  destruct (gate BOT_USERNAME body) as [[msg text]|] eqn:Hgate; [|by left].
  right. destruct (converse (chat_id msg) (from_id msg) text (ack w))
    as [r w2] eqn:Hrun.
  exists msg, text, r, w2. split; [by eapply gate_Some_body|].
  split; [done|]. split; [done|].
  unfold mbind, M_bind. rewrite Hrun. destruct r as [reply|e]; [|done].
  unfold await, succeeded. by destruct (sendMessage services _).
Qed.

(** Store and file move together through one update: either store, file
    and write count are as before, or exactly one write happened and the
    file holds the serialisation of the store. *)
Lemma webhook_save_step body w :
  (threads (handle body w) = threads w /\ file (handle body w) = file w
   /\ writes (handle body w) = writes w)
  \/ (writes (handle body w) = S (writes w) /\ synced (handle body w)).
Proof.
  destruct (webhook_split body w)
    as [[_ ->] | (msg & text & r & w2 & _ & _ & Hrun & Hw')]; [by left|].
  apply runAssistant_frame in Hrun as (_ & _ & Hsave & _).
  assert (threads (handle body w) = threads w2
          /\ file (handle body w) = file w2
          /\ writes (handle body w) = writes w2) as (Ht & Hf & Hw).
  { destruct r as [reply|e]; [|by rewrite Hw'].
    simpl in Hw'. by destruct (sendMessage services _); rewrite Hw'. }
  unfold synced in *. rewrite Ht, Hf, Hw. exact Hsave.
Qed.

(** X7. Every update is acknowledged exactly once, whatever happens to it;
    it adds at most one entry to the error log; and it leaves the records of
    all keys but the one of its chat and sender as they are. *)
Theorem webhook_acknowledges_and_isolates body w :
  acks (handle body w) = S (acks w)
  /\ (errlog (handle body w) = errlog w
      \/ exists e, errlog (handle body w) = errlog w ++ [e])
  /\ (forall k,
        (forall msg, body = Some msg ->
                     k <> getThreadKey (chat_id msg) (from_id msg)) ->
        threads (handle body w) !! k = threads w !! k).
Proof.
  destruct (webhook_split body w)
    as [[_ ->] | (msg & text & r & w2 & Hbody & _ & Hrun & Hw')].
  { split; [done|]. split; [by left | done]. }
  apply runAssistant_frame in Hrun as (Ha & He & _ & Hk).
  destruct r as [reply|e].
  - simpl in Hw'. destruct (sendMessage services _); rewrite Hw'; simpl;
      rewrite Ha, He; (split; [done|]); (split; [eauto|]);
      intros k Hne; apply Hk, Hne, Hbody.
  - rewrite Hw'. simpl. rewrite Ha, He. split; [done|]. split; [eauto|].
    intros k Hne. apply Hk, Hne, Hbody.
Qed.

(** X8. For an update the gate lets through, the handler asks the transport
    for at most one message, only after [runAssistant] returned a reply, and
    addressed to the chat of the update as an answer to its message. When it
    asks for none, it logs an error. *)
Theorem webhook_reply_or_error body w msg text :
  gate BOT_USERNAME body = Some (msg, text) ->
  (filter is_send (requests (handle body w)) = filter is_send (requests w)
   /\ exists e, errlog (handle body w) = errlog w ++ [e])
  \/ exists reply w2,
       converse (chat_id msg) (from_id msg) text (ack w) = (Ok reply, w2)
       /\ requests (handle body w)
          = requests w2
            ++ [SendMessage (chat_id msg) reply (message_id msg)]
       /\ filter is_send (requests w2) = filter is_send (requests w).
Proof.
  intros Hgate.
  destruct (webhook_split body w)
    as [[Hnone _] | (msg' & text' & r & w2 & _ & Hgate' & Hrun & Hw')];
    [congruence|].
  rewrite Hgate in Hgate'. injection Hgate' as <- <-.
  pose proof (runAssistant_no_send _ _ _ _ _ _ _ _ _ Hrun) as Hsend.
  pose proof (runAssistant_frame _ _ _ _ _ _ _ _ _ Hrun) as (_ & He & _).
  destruct r as [reply|e].
  - right. exists reply, w2. split; [done|]. split; [|done].
    simpl in Hw'. by destruct (sendMessage services _); rewrite Hw'.
  - left. rewrite Hw'. simpl. rewrite He. split; [done | eauto].
Qed.

(** One update removes no key from the store. *)
Lemma webhook_keeps_keys body w k :
  is_Some (threads w !! k) -> is_Some (threads (handle body w) !! k).
Proof.
  intros Hk.
  destruct (webhook_split body w)
    as [[_ ->] | (msg & text & r & w2 & _ & _ & Hrun & Hw')]; [done|].
  assert (threads (handle body w) = threads w2) as ->.
  { destruct r as [reply|e]; [|by rewrite Hw'].
    simpl in Hw'. by destruct (sendMessage services _); rewrite Hw'. }
  apply runAssistant_split in Hrun as (r1 & w1 & Hres & (-> & _) & _).
  apply resolve_cases in Hres as [(_ & _ & ->) | [_ Hres]]; [done|].
  destruct (threads_create services _) as [id|]; destruct Hres as [_ ->];
    [|done].
  simpl. rewrite lookup_insert. by case_decide.
Qed.

(** X6. Over any sequence of updates handled one after the other, store
    and file stay in step: either nothing was saved and store and file are
    as at the start, or the file holds the serialisation of the store. Each
    update writes the file at most once. *)
Theorem serve_keeps_file_in_step bodies w :
  let w' := serve PROMPT_VERSION ASSISTANT_ID BOT_USERNAME services bodies w in
  ((threads w' = threads w /\ file w' = file w /\ writes w' = writes w)
   \/ synced w')
  /\ (writes w <= writes w' <= writes w + length bodies)%nat.
Proof.
  unfold serve. revert w.
  induction bodies as [|body bodies IH]; intros w; simpl.
  { split; [by left | lia]. }
  destruct (IH (handle body w)) as [Hstep Hwrites].
  destruct (webhook_save_step body w) as [(Ht & Hf & Hw) | [Hw Hs]].
  - rewrite Ht, Hf, Hw in *. split; [done | lia].
  - split; [|lia]. right.
    destruct Hstep as [(Ht & Hf & _) | Hs']; [|done].
    unfold synced in *. by rewrite Ht, Hf.
Qed.

(** X15. Handling updates never removes a session: every key of the store
    is still a key after any sequence of updates, and every update is
    acknowledged. *)
Theorem serve_never_forgets bodies w :
  let w' := serve PROMPT_VERSION ASSISTANT_ID BOT_USERNAME services bodies w in
  dom (threads w) ⊆ dom (threads w')
  /\ acks w' = (acks w + length bodies)%nat.
Proof.
  unfold serve. revert w.
  induction bodies as [|body bodies IH]; intros w; simpl.
  { split; [done | lia]. }
  destruct (IH (handle body w)) as [Hdom Hacks]. split.
  - etrans; [|exact Hdom]. intros k. rewrite !elem_of_dom.
    apply webhook_keeps_keys.
  - rewrite Hacks.
    destruct (webhook_split body w)
      as [[_ ->] | (msg & text & r & w2 & _ & _ & Hrun & Hw')];
      [simpl; lia|].
    apply runAssistant_frame in Hrun as (Ha & _).
    assert (acks (handle body w) = acks w2) as ->.
    { destruct r as [reply|e]; [|by rewrite Hw'].
      simpl in Hw'. by destruct (sendMessage services _); rewrite Hw'. }
    rewrite Ha. simpl. lia.
Qed.

End Handler.

(** ** What the gate passes on *)

Section GateMore.
Variable BOT_USERNAME : jsstring.
Implicit Types (msg : message) (raw : jsstring).

Lemma trimStart_all_ws s : forallb is_ws s = true -> trimStart s = [].
Proof.
  induction s as [|c s IH]; simpl; [done|].
  rewrite andb_true_iff. intros [-> Hs]. by apply IH.
Qed.

Lemma trim_all_ws s : forallb is_ws s = true -> trim s = [].
Proof. intros H. unfold trim. by rewrite trimStart_all_ws. Qed.

Lemma trimStart_lead lead s c :
  forallb is_ws lead = true -> head s = Some c -> is_ws c = false ->
  trimStart (lead ++ s) = s.
Proof.
  intros Hlead Hhead Hc. induction lead as [|a lead IH]; simpl in *.
  - destruct s as [|b s]; [done|]. injection Hhead as ->. simpl.
    by rewrite Hc.
  - apply andb_true_iff in Hlead as [-> Hlead]. by apply IH.
Qed.

(** Trimming a text that is white space around a core with no white space
    at its ends gives back the core. *)
Lemma trim_core lead core trail a z :
  forallb is_ws lead = true -> forallb is_ws trail = true ->
  head core = Some a -> is_ws a = false ->
  last core = Some z -> is_ws z = false ->
  trim (lead ++ core ++ trail) = core.
Proof.
  intros Hlead Htrail Ha Hwa Hz Hwz. unfold trim.
  rewrite (trimStart_lead lead (core ++ trail) a); [|done| |done].
  - unfold trimEnd. rewrite rev_app_distr.
    rewrite (trimStart_lead (rev trail) (rev core) z);
      [apply rev_involutive | by rewrite forallb_rev | | done].
    by rewrite head_rev_last.
  - by destruct core.
Qed.

Lemma replace_self p : replace p [] p = [].
Proof.
  assert (occurs p p) as Hocc by (exists [], []; by rewrite app_nil_r).
  destruct (replace_first p [] p Hocc) as (pre & post & Hsplit & -> & Hmin).
  specialize (Hmin [] [] ltac:(by rewrite app_nil_r)).
  destruct pre; [|simpl in Hmin; lia]. simpl in *.
  apply (f_equal length) in Hsplit. rewrite length_app in Hsplit.
  destruct post; [done | simpl in Hsplit; lia].
Qed.

(** X9. Whatever the gate passes on, in any kind of chat, comes from a
    message with a non-empty text and neither starts nor ends with white
    space. *)
Theorem gate_passes_trimmed_text body msg t :
  gate BOT_USERNAME body = Some (msg, t) ->
  body = Some msg
  /\ (exists raw, text msg = Some raw /\ raw <> [])
  /\ (forall c, head t = Some c -> is_ws c = false)
  /\ (forall c, last t = Some c -> is_ws c = false).
Proof.
  unfold gate. destruct body as [m|]; [|done].
  destruct (text m) as [[|c0 raw]|] eqn:Htext; try done.
  destruct (_ && _); [done|]. intros [= -> <-].
  split; [done|]. split; [by eexists|].
  destruct (negb _); split; intros c; apply trim_head || apply trim_last.
Qed.

(** X10. An empty text is still passed on: in a private chat when the
    message is nothing but white space, elsewhere when it is nothing but the
    mention with white space around it. *)
Theorem gate_passes_empty_text msg raw :
  text msg = Some raw ->
  (chat_type msg = lit "private" -> raw <> [] ->
   forallb is_ws raw = true ->
   gate BOT_USERNAME (Some msg) = Some (msg, []))
  /\ (chat_type msg <> lit "private" ->
      (forall c, last BOT_USERNAME = Some c -> is_ws c = false) ->
      forall lead trail,
        forallb is_ws lead = true -> forallb is_ws trail = true ->
        raw = lead ++ mention BOT_USERNAME ++ trail ->
        gate BOT_USERNAME (Some msg) = Some (msg, [])).
Proof.
  intros Htext. split.
  - intros Htype Hne Hws. rewrite (gate_private _ _ _ Htype Htext).
    destruct raw; [done|]. by rewrite trim_all_ws.
  - intros Htype Hlast lead trail Hlead Htrail ->.
    rewrite (gate_group _ _ _ Htype Htext).
    destruct (last (mention BOT_USERNAME)) as [z|] eqn:Hz;
      [|by apply last_None in Hz].
    rewrite (trim_core lead _ trail 64 z); try done.
    + assert (includes (mention BOT_USERNAME) (mention BOT_USERNAME) = true)
        as -> by (apply includes_true; exists [], []; by rewrite app_nil_r).
      by rewrite replace_self.
    + by apply (mention_last BOT_USERNAME).
Qed.

End GateMore.

(** ** Starting and restarting the process *)

Section Startup.
Import Toplevel.

(** X11. The module of part_000 gets as far as [app.listen] exactly when
    the configuration is complete and the registration of the webhook
    resolves; a missing variable exits and a rejected registration throws
    before the server is started. *)
Theorem part_000_listens_iff h :
  listening (final (evaluate part_000 h)) = env_complete h && fetch_ok h.
Proof. by destruct h as [[] [] [] []]. Qed.

(** X12. However the evaluation of part_000 ends, the threads file does not
    exist afterwards: it is unlinked at lines 16-19, before the
    configuration is validated. *)
Theorem part_000_unlinks_first h :
  file_exists (world (final (evaluate part_000 h))) = false.
Proof. by destruct h as [[] [] [] []]. Qed.

Context `{JSON : JsonLib}.

(** X13. A restart of part_000 forgets every session: whatever the file
    held, the process starts with an empty store and no file, and the first
    call for any key, under any version, asks the service for a new
    session. *)
Theorem part_000_restart_forgets file v services chatId userId :
  exists w0,
    boot_part_000 file = Some w0
    /\ threads w0 = ∅ /\ World.file w0 = None
    /\ requests (snd (Versioned.getOrCreateThread v services chatId userId w0))
       = [ThreadsCreate].
Proof.
  eexists. split.
  - unfold boot_part_000. by destruct file.
  - split; [done|]. split; [by destruct file|].
    rewrite resolve_miss by done.
    by destruct (threads_create services _).
Qed.

End Startup.

(** ** More concrete runs *)

Section MoreRuns.
Import Demo.

#[local] Abbreviation PV := Versioned.PROMPT_VERSION.
#[local] Abbreviation failing := (services (lit "failed") []).
#[local] Abbreviation completing :=
  (services (lit "completed")
     [turn (lit "assistant") (lit "Hi!"); turn (lit "user") (lit "hi")]).
#[local] Abbreviation J := MiniJson.json.

(** X1 on the chats 7 and 74: ["7:42"] and ["74:2"]. *)
Lemma getThreadKey_injective_witness :
  (7%Z, Some 42%Z) <> (74%Z, Some 2%Z)
  /\ getThreadKey 7 (Some 42%Z) <> getThreadKey 74 (Some 2%Z).
Proof.
  assert ((7%Z, Some 42%Z) <> (74%Z, Some 2%Z)) as Hne by discriminate.
  split; [exact Hne|].
  exact (getThreadKey_injective 7 (Some 42%Z) 74 (Some 2%Z) Hne).
Defined.

(** X2 on a store written under version 1.1. *)
Lemma getOrCreateThread_store_after_witness :
  let w' := Versioned.created (JSON := J) PV key (lit "thread_0") stale_world in
  Versioned.getOrCreateThread (JSON := J) PV failing 7 (Some 42%Z) stale_world
  = (Ok (JStr (lit "thread_0")), w')
  /\ exists rec, threads w' !! getThreadKey 7 (Some 42%Z) = Some rec
       /\ get (lit "thread_id") rec = JStr (lit "thread_0")
       /\ get (lit "prompt_version") rec = JStr PV.
Proof.
  intros w'. split; [vm_compute; reflexivity|].
  exact (proj1 (getOrCreateThread_store_after (JSON := J) failing PV
                  7 (Some 42%Z) stale_world (JStr (lit "thread_0")) w'
                  eq_refl)).
Defined.

(** X3: created under 1.1, resolved again under 1.2. *)
Lemma getOrCreateThread_version_bump_witness :
  let w1 := Versioned.created (JSON := J) (lit "1.1") key (lit "thread_0")
              world0 in
  lit "1.1" <> PV
  /\ Versioned.getOrCreateThread (JSON := J) (lit "1.1") failing
       7 (Some 42%Z) world0 = (Ok (JStr (lit "thread_0")), w1)
  /\ exists r w2,
       Versioned.getOrCreateThread (JSON := J) PV failing 7 (Some 42%Z) w1
       = (r, w2)
       /\ requests w2 = requests w1 ++ [ThreadsCreate].
Proof.
  intros w1.
  assert (lit "1.1" <> PV) as Hne by discriminate.
  split; [exact Hne|]. split; [vm_compute; reflexivity|].
  destruct (getOrCreateThread_version_bump (JSON := J) failing
              (lit "1.1") PV 7 (Some 42%Z) world0 (JStr (lit "thread_0")) w1
              Hne eq_refl) as (r & w2 & Hrun & Hreq & _).
  exists r, w2. split; [exact Hrun | exact Hreq].
Defined.

(** X4 from the empty store. *)
Lemma index_js_getOrCreateThread_twice_witness :
  let w1 := snd (IndexJs.getOrCreateThread (JSON := J) failing 7 (Some 42%Z)
                   world0) in
  IndexJs.getOrCreateThread (JSON := J) failing 7 (Some 42%Z) world0
  = (Ok (JStr (lit "thread_0")), w1)
  /\ IndexJs.getOrCreateThread (JSON := J) failing 7 (Some 42%Z) w1
     = (Ok (JStr (lit "thread_0")), w1)
  /\ (writes w1 <= 1)%nat.
Proof.
  intros w1. split; [vm_compute; reflexivity|].
  exact (index_js_getOrCreateThread_twice (JSON := J) failing 7 (Some 42%Z)
           world0 (JStr (lit "thread_0")) w1
           (demo_services_issue_handles _ _) eq_refl).
Defined.

(** X5 on a run that completes. *)
Lemma runAssistant_protocol_witness :
  let out := Versioned.runAssistant (JSON := J) PV ASSISTANT_ID completing
               7 (Some 42%Z) (lit "hi") world0 in
  out = (Ok (JStr (lit "Hi!")), snd out)
  /\ exists pre tid steps,
       requests (snd out) = requests world0 ++ pre ++ steps
       /\ (pre = [] \/ pre = [ThreadsCreate])
       /\ steps `prefix_of` conversation tid ASSISTANT_ID (lit "hi").
Proof.
  intros out. split; [vm_compute; reflexivity|].
  destruct (runAssistant_protocol (JSON := J) PV ASSISTANT_ID completing
              7 (Some 42%Z) (lit "hi") world0 (Ok (JStr (lit "Hi!"))) (snd out)
              eq_refl) as (pre & tid & steps & Hreq & Hpre & Hsteps & _).
  exists pre, tid, steps. repeat split; assumption.
Defined.

(** X16 on a window that lists the user's turn first, then two turns by
    the assistant. *)
Lemma runAssistant_reply_is_first_assistant_text_witness :
  let data := [turn (lit "user") (lit "hi"); turn (lit "assistant") (lit "Hi!");
               turn (lit "assistant") (lit "earlier")] in
  let w1 := Versioned.created (JSON := J) PV key (lit "thread_0") world0 in
  lit "Hi!" <> []
  /\ exists w2,
       Versioned.runAssistant (JSON := J) PV ASSISTANT_ID
         (services (lit "completed") data) 7 (Some 42%Z) (lit "hi") world0
       = (Ok (JStr (lit "Hi!")), w2)
       /\ requests w2
          = requests w1
            ++ conversation (JStr (lit "thread_0")) ASSISTANT_ID (lit "hi").
Proof.
  intros data w1.
  assert (lit "Hi!" <> []) as Hne by discriminate.
  split; [exact Hne|].
  exact (runAssistant_reply_is_first_assistant_text (JSON := J) PV
           ASSISTANT_ID (services (lit "completed") data)
           7 (Some 42%Z) (lit "hi") world0 (JStr (lit "thread_0")) w1
           [turn (lit "user") (lit "hi")]
           (turn (lit "assistant") (lit "Hi!"))
           [turn (lit "assistant") (lit "earlier")]
           (<[lit "type" := JStr (lit "text")]>
              (<[lit "text" := JObj {[ lit "value" := JStr (lit "Hi!") ]}]> ∅))
           [] {[ lit "value" := JStr (lit "Hi!") ]} (lit "Hi!")
           eq_refl eq_refl eq_refl eq_refl eq_refl eq_refl eq_refl eq_refl
           eq_refl Hne).
Defined.

(** X7: an update of chat 7 and user 42 leaves the record of ["9:9"] alone. *)
Lemma webhook_acknowledges_and_isolates_witness :
  let w := with_threads {[ lit "9:9" := JStr (lit "thread_other") ]} in
  let w' := Versioned.webhook (JSON := J) PV ASSISTANT_ID default_BOT_USERNAME
              completing (Some (msg (lit "private") (lit "hi"))) w in
  lit "9:9" <> getThreadKey 7 (Some 42%Z)
  /\ threads w' !! lit "9:9" = threads w !! lit "9:9".
Proof.
  intros w w'.
  assert (lit "9:9" <> getThreadKey 7 (Some 42%Z)) as Hne by discriminate.
  split; [exact Hne|].
  refine (proj2 (proj2 (webhook_acknowledges_and_isolates (JSON := J) PV
                          ASSISTANT_ID default_BOT_USERNAME completing
                          (Some (msg (lit "private") (lit "hi"))) w))
                (lit "9:9") _).
  intros m [= <-]. exact Hne.
Defined.

(** X8 on a run that fails: nothing is sent and one error is logged. *)
Lemma webhook_reply_or_error_witness :
  let body := Some (msg (lit "private") (lit "hi")) in
  let w' := Versioned.webhook (JSON := J) PV ASSISTANT_ID default_BOT_USERNAME
              failing body world0 in
  gate default_BOT_USERNAME body = Some (msg (lit "private") (lit "hi"), lit "hi")
  /\ ((filter is_send (requests w') = filter is_send (requests world0)
       /\ exists e, errlog w' = errlog world0 ++ [e])
      \/ exists reply w2,
           Versioned.runAssistant (JSON := J) PV ASSISTANT_ID failing
             (chat_id (msg (lit "private") (lit "hi")))
             (from_id (msg (lit "private") (lit "hi"))) (lit "hi") (ack world0)
           = (Ok reply, w2)
           /\ requests w'
              = requests w2
                ++ [SendMessage (chat_id (msg (lit "private") (lit "hi"))) reply
                      (message_id (msg (lit "private") (lit "hi")))]
           /\ filter is_send (requests w2) = filter is_send (requests world0)).
Proof.
  intros body w'. split; [vm_compute; reflexivity|].
  exact (webhook_reply_or_error (JSON := J) PV ASSISTANT_ID
           default_BOT_USERNAME failing body world0
           (msg (lit "private") (lit "hi")) (lit "hi") eq_refl).
Defined.

(** X9 on a group message. *)
Lemma gate_passes_trimmed_text_witness :
  let m := msg (lit "group") (lit " @SiharaPrakBot  hi ") in
  gate default_BOT_USERNAME (Some m) = Some (m, lit "hi")
  /\ (forall c, head (lit "hi") = Some c -> is_ws c = false)
  /\ (forall c, last (lit "hi") = Some c -> is_ws c = false).
Proof.
  intros m. split; [vm_compute; reflexivity|].
  exact (proj2 (proj2 (gate_passes_trimmed_text default_BOT_USERNAME
                         (Some m) m (lit "hi") eq_refl))).
Defined.

(** X10 on a private message of two spaces and on a group message that is
    only the mention. *)
Lemma gate_passes_empty_text_witness :
  let p := msg (lit "private") (lit "  ") in
  let g := msg (lit "group") (lit " @SiharaPrakBot ") in
  gate default_BOT_USERNAME (Some p) = Some (p, [])
  /\ gate default_BOT_USERNAME (Some g) = Some (g, []).
Proof.
  intros p g. split.
  - exact (proj1 (gate_passes_empty_text default_BOT_USERNAME p (lit "  ")
                    eq_refl)
                 eq_refl ltac:(discriminate) eq_refl).
  - exact (proj2 (gate_passes_empty_text default_BOT_USERNAME g
                    (lit " @SiharaPrakBot ") eq_refl)
                 ltac:(discriminate) default_BOT_USERNAME_last
                 (lit " ") (lit " ") eq_refl eq_refl eq_refl).
Defined.

End MoreRuns.
